(** * GroqAPILLM: the completion node with conversation context

    A shallow embedding of [nodes/groq_api_llm.py]:
    [GroqAPILLM.process_completion_request] and the state it works on.

    Python hands lists around by reference and the method appends to its
    history in place, so the embedding keeps a heap of list objects, and the
    conversation table of the [ChatHistoryManager] maps an identifier to the
    address of its message list.  The network and the identifier generator
    are the environment of one invocation. *)

From Stdlib Require Import ZArith PrimFloat.
From stdpp Require Import base list strings.

Local Open Scope Z_scope.
Local Open Scope nat_scope.

(** ** Python values the node handles *)

(** A chat message, the dict [{"role": ..., "content": ...}]. *)
Record Message := { role : string; content : string }.

(** Addresses of list objects. *)
Abbreviation loc := nat.

(** Truth value of a [str] and of a [list]: empty is false. *)
Definition str_truthy (s : string) : bool :=
  match s with EmptyString => false | String _ _ => true end.

Definition list_truthy {A} (l : list A) : bool :=
  match l with [] => false | _ :: _ => true end.

(** ** Insertion-ordered dictionaries with string keys

    A Python [dict] keeps its keys in insertion order, and [json.dumps]
    prints them in that order; assigning to a key that is present replaces
    the value where it stands. *)
Section PyDict.
Context {V : Type}.

Fixpoint dict_get (d : list (string * V)) (k : string) : option V :=
  match d with
  | [] => None
  | (k', v) :: d' => if String.eqb k' k then Some v else dict_get d' k
  end.

Fixpoint dict_set (d : list (string * V)) (k : string) (v : V)
  : list (string * V) :=
  match d with
  | [] => [(k, v)]
  | (k', v') :: d' =>
      if String.eqb k' k then (k, v) :: d' else (k', v') :: dict_set d' k v
  end.

Definition dict_keys (d : list (string * V)) : list string := d.*1.
End PyDict.

(** ** The state of the process *)

(** Values of the request dictionary [data]; the history is held by
    reference. *)
Inductive PyVal :=
| PyStr (s : string)
| PyInt (z : Z)
| PyFloat (f : float)
| PyList (l : loc).

(** The same values once serialised for the wire: the list is read. *)
Inductive JVal :=
| JStr (s : string)
| JInt (z : Z)
| JFloat (f : float)
| JMessages (ms : list Message).

(** One POST as it leaves the process. *)
Record Request := {
  req_url : string;
  req_headers : list (string * string);
  req_json : list (string * JVal)
}.

(** [heap]: the list objects; [conversations]: the table of the
    [ChatHistoryManager]; [wire]: the POSTs issued so far, oldest first. *)
Record World := {
  heap : list (list Message);
  conversations : list (string * loc);
  wire : list Request
}.

(** What one attempt comes back with: a completion with its text and status,
    or a failure (non-2xx status or network error) with its text and
    status. *)
Inductive Outcome :=
| Completed (text status : string)
| Failed (text status : string).

(** The environment of one invocation: the identifier [uuid4] hands out if
    asked, and the answer of the endpoint to the [n]-th attempt at a
    request. *)
Record Env := {
  uuid4 : string;
  post : Request → nat → Outcome
}.

(** ** A state monad over [World] *)

Definition M (A : Type) : Type := World → A * World.

Definition ret {A} (a : A) : M A := λ w, (a, w).

Definition bind {A B} (c : M A) (k : A → M B) : M B :=
  λ w, let '(a, w') := c w in k a w'.

Notation "'do' x <- c ; k" := (bind c (λ x, k))
  (at level 10, x name, c at level 100, k at level 200, only parsing).
Notation "'do' ' p <- c ; k" := (bind c (λ x, match x with p => k end))
  (at level 10, p pattern, c at level 100, k at level 200, only parsing).
Notation "'run' c ; k" := (bind c (λ _, k))
  (at level 10, c at level 100, k at level 200, only parsing).

(** *** List objects *)

(** [[]]: a new, empty list object. *)
Definition list_new : M loc := λ w,
  (length (heap w),
   {| heap := heap w ++ [[]]; conversations := conversations w;
      wire := wire w |}).

(** [l.append(m)], in place. *)
Definition list_append (l : loc) (m : Message) : M unit := λ w,
  (tt,
   {| heap := alter (λ ms, ms ++ [m]) l (heap w);
      conversations := conversations w; wire := wire w |}).

(** The contents of a list object. *)
Definition deref (w : World) (l : loc) : list Message :=
  default [] (heap w !! l).

Definition list_read (l : loc) : M (list Message) := λ w, (deref w l, w).

(** [list(l)]: a new list object holding the messages of the one at [l]. *)
Definition list_copy (l : loc) : M loc := λ w,
  (length (heap w),
   {| heap := heap w ++ [deref w l]; conversations := conversations w;
      wire := wire w |}).

(** ** ChatHistoryManager *)

(** Modelled from the spec: [utils/chat_utils.py] is not among the sources.
    [create_new_conversation] "generates a fresh, collision-free identifier;
    registers an empty conversation; returns the identifier".  The
    identifier is the one the environment supplies. *)
Definition create_new_conversation (env : Env) : M string :=
  do l <- list_new;
  run (λ w, (tt, {| heap := heap w;
                    conversations := dict_set (conversations w) (uuid4 env) l;
                    wire := wire w |}));
  ret (uuid4 env).

(** Modelled from the spec: [get_history] "returns the conversation's
    messages (empty sequence if id unknown -- does not fail)".  The store
    changes through the manager only: [update_history] is "not appending at
    the store layer -- callers pass the complete desired history", and after
    a failed request the "stored history is unchanged"; so what is returned
    is a list of its own that holds the stored messages, not the stored
    list.  "A Conversation is created on first reference to an unknown/empty
    identifier": an unknown identifier is entered in the table with an empty
    conversation. *)
Definition get_history (conversation_id : string) : M loc :=
  do l <- (λ w,
             match dict_get (conversations w) conversation_id with
             | Some l => ret l w
             | None =>
                 (do l <- list_new;
                  run (λ w, (tt, {| heap := heap w;
                                    conversations :=
                                      dict_set (conversations w)
                                        conversation_id l;
                                    wire := wire w |}));
                  ret l) w
             end);
  list_copy l.

(** Modelled from the spec: [update_history] "replaces the stored sequence
    for id with the given sequence, overwriting in full". *)
Definition update_history (conversation_id : string) (messages : loc)
  : M unit := λ w,
  (tt, {| heap := heap w;
          conversations := dict_set (conversations w) conversation_id messages;
          wire := wire w |}).

(** Modelled from the spec: [get_all_conversations] gives the "mapping id ->
    sequence of Message" of "all known conversations". *)
Definition get_all_conversations : M (list (string * loc)) := λ w,
  (conversations w, w).

(** The messages stored for an identifier, as a reader of the table sees
    them: what the list [get_history] returns holds ([get_history_stored]
    below). *)
Definition stored (w : World) (conversation_id : string) : list Message :=
  match dict_get (conversations w) conversation_id with
  | Some l => deref w l
  | None => []
  end.

(** ** The request helper *)

(** Modelled from the spec: the body of a request, which is inside
    [make_api_request] of [utils/api_utils.py] and not among the sources.
    The wire carries a "JSON body [{model, messages:[{role,content}],
    temperature, max_tokens, top_p, seed, stop?}]": the dictionary [data] as
    it reads when the request is sent, the history being read at that
    moment. *)
Definition serialise (w : World) (data : list (string * PyVal))
  : list (string * JVal) :=
  map (λ kv, (kv.1,
              match kv.2 with
              | PyStr s => JStr s
              | PyInt z => JInt z
              | PyFloat f => JFloat f
              | PyList l => JMessages (deref w l)
              end)) data.

(** Modelled from the spec: one attempt "sends over HTTPS to a fixed
    completion endpoint with bearer-token authorization"; the request is
    built from the arguments of [make_api_request] and leaves the process. *)
Definition send (data : list (string * PyVal))
    (headers : list (string * string)) (url : string) : M Request := λ w,
  let rq := {| req_url := url; req_headers := headers;
               req_json := serialise w data |} in
  (rq, {| heap := heap w; conversations := conversations w;
          wire := wire w ++ [rq] |}).

(** Modelled from the spec: [utils/api_utils.py] is not among the sources.
    "Retries on failure up to [max_retries] attempts total; [...] each failed
    attempt (non-2xx status or network error) is retried until attempts
    exhausted, then returns the last failure's status and success=false.  No
    retry on success."  "On success, returns the model's generated text,
    success=true, and the HTTP status code as a string."  [remaining] counts
    the attempts left, [attempt] the attempts made, [last] is the text and
    status of the latest failure. *)
Fixpoint attempt_loop (env : Env) (data : list (string * PyVal))
    (headers : list (string * string)) (url : string)
    (remaining attempt : nat) (last : string * string)
  : M (string * bool * string) :=
  match remaining with
  | O => ret (last.1, false, last.2)
  | S remaining' =>
      do rq <- send data headers url;
      match post env rq attempt with
      | Completed text status => ret (text, true, status)
      | Failed text status =>
          attempt_loop env data headers url remaining' (S attempt)
            (text, status)
      end
  end.

(** Modelled from the spec: [make_api_request(data, headers, url,
    max_retries)], the loop above run for [max_retries] attempts (none when
    [max_retries] is not positive, as [range] has it).  With no attempt made
    there is no last failure to report and the spec names no text for that
    case: the model returns the empty text and status. *)
Definition make_api_request (env : Env) (data : list (string * PyVal))
    (headers : list (string * string)) (url : string) (max_retries : Z)
  : M (string * bool * string) :=
  attempt_loop env data headers url (Z.to_nat max_retries) 0 ("", "").

(** ** The node *)

(** The attributes [__init__] sets and the method reads; the
    [chat_history_manager] lives in the [World]. *)
Record GroqAPILLM := {
  api_key : string;
  prompt_options : list (string * string)
}.

Definition DEFAULT_PROMPT : string := "Use [system_message] and [user_input]".

(** The five values the method returns, under their [RETURN_NAMES]. *)
Record Outputs := {
  api_response : string;
  success : bool;
  status_code : string;
  conversation_id : string;
  chat_history : string
}.

(** What [json.dumps] is given for the fifth output: every identifier of the
    table with its messages, in the order of the table. *)
Definition snapshot (w : World) (all : list (string * loc))
  : list (string * list Message) :=
  map (λ kl, (kl.1, deref w kl.2)) all.

Section Node.

(** [get_prompt_content(prompt_options, preset)] of [utils/api_utils.py],
    which is not among the sources: the text a preset name stands for. *)
Variable get_prompt_content : list (string * string) → string → string.

(** [json.dumps(_, indent=2)] on a table of conversations. *)
Variable json_dumps : list (string * list Message) → string.

(** Lines 99-102: the system message the turn is given. *)
Definition resolve_system_message (self : GroqAPILLM)
    (preset system_message : string) : string :=
  if String.eqb preset DEFAULT_PROMPT then system_message
  else get_prompt_content (prompt_options self) preset.

(** [GroqAPILLM.process_completion_request].  The three seeding calls at
    its head act on random generators that nothing below reads, and the
    [print] goes to the console; neither is part of the [World]. *)
Definition process_completion_request (self : GroqAPILLM) (env : Env)
    (model preset system_message user_input : string)
    (temperature : float) (max_tokens : Z) (top_p : float)
    (seed max_retries : Z) (stop : string) (json_mode : bool)
    (conversation_id : string) : M Outputs :=
  let system_message := resolve_system_message self preset system_message in
  let url := "https://api.groq.com/openai/v1/chat/completions" in
  let headers := [("Authorization", "Bearer " +:+ api_key self)] in
  do conversation_id <-
    (if negb (str_truthy conversation_id)
     then create_new_conversation env
     else ret conversation_id);
  do conversation_history <- get_history conversation_id;
  do contents <- list_read conversation_history;
  run (if negb (list_truthy contents)
       then list_append conversation_history
              {| role := "system"; content := system_message |}
       else ret tt);
  run list_append conversation_history
        {| role := "user"; content := user_input |};
  let data :=
    [("model", PyStr model);
     ("messages", PyList conversation_history);
     ("temperature", PyFloat temperature);
     ("max_tokens", PyInt max_tokens);
     ("top_p", PyFloat top_p);
     ("seed", PyInt seed)] in
  let data :=
    if str_truthy stop then dict_set data "stop" (PyStr stop) else data in
  do '(assistant_message, success, status_code) <-
    make_api_request env data headers url max_retries;
  run (if success : bool
       then
         run list_append conversation_history
               {| role := "assistant"; content := assistant_message |};
         update_history conversation_id conversation_history
       else ret tt);
  do all <- get_all_conversations;
  do chat_history <- (λ w, (json_dumps (snapshot w all), w));
  ret {| api_response := assistant_message; success := success;
         status_code := status_code; conversation_id := conversation_id;
         chat_history := chat_history |}.

(** [GroqAPILLM.get_chat_history]. *)
Definition get_chat_history : M string :=
  do all_conversations <- get_all_conversations;
  λ w, (json_dumps (snapshot w all_conversations), w).

End Node.

(** ** Notions the statements are written in *)

(** The three kinds of message the method appends. *)
Definition system_turn (text : string) : Message :=
  {| role := "system"; content := text |}.
Definition user_turn (text : string) : Message :=
  {| role := "user"; content := text |}.
Definition assistant_turn (text : string) : Message :=
  {| role := "assistant"; content := text |}.

(** Modelled from the spec: the state [ChatHistoryManager()] starts from.
    "For a new conversation, [get_history] before any turn returns an empty
    sequence": no list object, no conversation, and nothing sent yet. *)
Definition initial_world : World :=
  {| heap := []; conversations := []; wire := [] |}.

(** A well-formed state: every list the table refers to exists, the table has
    each identifier once, and no two identifiers share a list object.  The
    states a manager gets into are all of this kind ([reachable_wf]
    below). *)
Definition wf (w : World) : Prop :=
  (∀ l, l ∈ (conversations w).*2 → l < length (heap w)) ∧
  NoDup (dict_keys (conversations w)) ∧
  NoDup (conversations w).*2.

(** The same state with more requests on the wire. *)
Definition with_wire (w : World) (rqs : list Request) : World :=
  {| heap := heap w; conversations := conversations w;
     wire := wire w ++ rqs |}.

(** The same state with [ms] appended to the list object at [l]. *)
Definition appended (l : loc) (ms : list Message) (w : World) : World :=
  {| heap := alter (λ old, old ++ ms) l (heap w);
     conversations := conversations w; wire := wire w |}.

(** The same state with a new list object that holds [ms]. *)
Definition allocated (ms : list Message) (w : World) : World :=
  {| heap := heap w ++ [ms]; conversations := conversations w;
     wire := wire w |}.

(** The same state with the list object at [l] entered under [id]. *)
Definition entered (id : string) (l : loc) (w : World) : World :=
  {| heap := heap w; conversations := dict_set (conversations w) id l;
     wire := wire w |}.

(** Whether the table has an entry for an identifier. *)
Definition known (w : World) (id : string) : bool :=
  match dict_get (conversations w) id with Some _ => true | None => false end.

(** The request [send] builds in state [w]. *)
Definition request_of (w : World) (data : list (string * PyVal))
    (headers : list (string * string)) (url : string) : Request :=
  {| req_url := url; req_headers := headers; req_json := serialise w data |}.

(** The retry loop without the state: the result, and how many requests it
    takes, given the answer to each attempt. *)
Fixpoint attempts (answer : nat → Outcome) (remaining attempt : nat)
    (last : string * string) : (string * bool * string) * nat :=
  match remaining with
  | O => ((last.1, false, last.2), 0)
  | S remaining' =>
      match answer attempt with
      | Completed text status => ((text, true, status), 1)
      | Failed text status =>
          let '(r, k) := attempts answer remaining' (S attempt) (text, status)
          in (r, S k)
      end
  end.

Definition is_failed (o : Outcome) : Prop :=
  match o with Failed _ _ => True | Completed _ _ => False end.

Definition outcome_text (o : Outcome) : string :=
  match o with Completed text _ | Failed text _ => text end.

Definition outcome_status (o : Outcome) : string :=
  match o with Completed _ status | Failed _ status => status end.

(** Lines 107-111 of the method: the identifier the turn works on, and its
    list object. *)
Definition locate (env : Env) (conversation_id : string)
  : M (string * loc) :=
  do conversation_id <-
    (if negb (str_truthy conversation_id)
     then create_new_conversation env
     else ret conversation_id);
  do conversation_history <- get_history conversation_id;
  ret (conversation_id, conversation_history).

(** The identifier a call works on: the one given, or the generated one. *)
Definition turn_id (env : Env) (conversation_id : string) : string :=
  if str_truthy conversation_id then conversation_id else uuid4 env.

(** The history a call finds: the stored one, or none for a conversation it
    creates. *)
Definition history_before (w : World) (conversation_id : string)
  : list Message :=
  if str_truthy conversation_id then stored w conversation_id else [].

(** What a call appends before the request: the system message if the history
    is empty, then the user message. *)
Definition opening (old : list Message) (system_message user_input : string)
  : list Message :=
  (if list_truthy old then [] else [system_turn system_message])
    ++ [user_turn user_input].

Definition API_URL : string :=
  "https://api.groq.com/openai/v1/chat/completions".

Definition auth_headers (self : GroqAPILLM) : list (string * string) :=
  [("Authorization", "Bearer " +:+ api_key self)].

(** The dictionary [data] of lines 120-130. *)
Definition request_data (model : string) (conversation_history : loc)
    (temperature : float) (max_tokens : Z) (top_p : float) (seed : Z)
    (stop : string) : list (string * PyVal) :=
  [("model", PyStr model);
   ("messages", PyList conversation_history);
   ("temperature", PyFloat temperature);
   ("max_tokens", PyInt max_tokens);
   ("top_p", PyFloat top_p);
   ("seed", PyInt seed)]
  ++ (if str_truthy stop then [("stop", PyStr stop)] else []).

(** Its serialisation when the history reads [messages]. *)
Definition request_body (model : string) (messages : list Message)
    (temperature : float) (max_tokens : Z) (top_p : float) (seed : Z)
    (stop : string) : list (string * JVal) :=
  [("model", JStr model);
   ("messages", JMessages messages);
   ("temperature", JFloat temperature);
   ("max_tokens", JInt max_tokens);
   ("top_p", JFloat top_p);
   ("seed", JInt seed)]
  ++ (if str_truthy stop then [("stop", JStr stop)] else []).

(** How many messages of a history carry the system role. *)
Definition system_count (ms : list Message) : nat :=
  length (filter (λ m, role m = "system") ms).

Section Reachable.
Variable get_prompt_content : list (string * string) → string → string.
Variable json_dumps : list (string * list Message) → string.

(** The states a manager gets into: it starts empty, and only
    [process_completion_request] changes it, on whichever node and with
    whatever inputs and environment. *)
Inductive reachable : World → Prop :=
| reach_init : reachable initial_world
| reach_call self env model preset system_message user_input temperature
    max_tokens top_p seed max_retries stop json_mode cid w out w' :
    reachable w →
    process_completion_request get_prompt_content json_dumps self env model
      preset system_message user_input temperature max_tokens top_p seed
      max_retries stop json_mode cid w = (out, w') →
    reachable w'.
End Reachable.

(** Well-formedness can be checked by evaluation. *)
#[global] Instance wf_dec w : Decision (wf w).
Proof.
  refine (cast_if (decide (Forall (λ l, l < length (heap w))
                             (conversations w).*2 ∧
                           NoDup (dict_keys (conversations w)) ∧
                           NoDup (conversations w).*2)));
    unfold wf; rewrite Forall_forall in *; tauto.
Defined.

(** ** A concrete node, to evaluate the method on *)

(** A stand-in for [get_prompt_content]: the text stored under the preset
    name, empty if there is none. *)
Definition sample_get_prompt_content (options : list (string * string))
    (preset : string) : string :=
  default "" (dict_get options preset).

(** A stand-in for [json.dumps]: identifiers and messages in order, without
    escaping. *)
Definition sample_json_dumps (table : list (string * list Message)) : string :=
  String.concat "; "
    (map (λ entry,
            entry.1 +:+ ": "
            +:+ String.concat ", "
                  (map (λ m, role m +:+ "=" +:+ content m) entry.2))
       table).

Definition sample_node : GroqAPILLM :=
  {| api_key := "gsk_test";
     prompt_options := [("Pirate", "Talk like a pirate.")] |}.

(** Three endpoints: one that fails every attempt, one that completes every
    attempt, one that fails the first attempt and completes the others. *)
Definition always_fails : Env :=
  {| uuid4 := "c0ffee"; post := λ _ _, Failed "Internal Server Error" "500" |}.

Definition always_completes : Env :=
  {| uuid4 := "c0ffee"; post := λ _ _, Completed "Hello!" "200" |}.

Definition fails_once : Env :=
  {| uuid4 := "c0ffee";
     post := λ _ n,
       match n with
       | O => Failed "Too Many Requests" "429"
       | S _ => Completed "Hello!" "200"
       end |}.

(** A call with the default preset, three attempts allowed and no stop
    sequence. *)
Definition sample_call (env : Env) (system_message user_input : string)
    (cid : string) : M Outputs :=
  process_completion_request sample_get_prompt_content sample_json_dumps
    sample_node env "llama3-8b-8192" DEFAULT_PROMPT system_message user_input
    0.5%float 1024%Z 1%float 42%Z 3%Z "" false cid.

(** The state after one completed turn of a new conversation. *)
Definition one_turn_world : World :=
  (sample_call always_completes "Be brief." "Hi" "" initial_world).2.

(** ** What the node declares to its host *)

(** The descriptor of one input: a choice among strings, or a typed field
    with the options its dictionary gives.  The two string fields without a
    [multiline] entry and the integer field without a [step] entry have
    none here. *)
Inductive InputSpec :=
| Choice (options : list string) (tooltip : string)
| StringInput (multiline : option bool) (default tooltip : string)
| FloatInput (default min max step : float) (tooltip : string)
| IntInput (default min max : Z) (step : option Z) (tooltip : string)
| BooleanInput (default : bool) (tooltip : string).

Definition LLM_MODELS : list string :=
  ["llama-3.1-8b-instant";
   "llama-3.1-70b-versatile";
   "llama3-8b-8192";
   "llama3-70b-8192";
   "llama-guard-3-8b";
   "llama3-groq-8b-8192-tool-use-preview";
   "llama3-groq-70b-8192-tool-use-preview";
   "mixtral-8x7b-32768";
   "gemma-7b-it";
   "gemma2-9b-it";
   "llama-3.2-1b-preview";
   "llama-3.2-3b-preview";
   "llama-3.2-11b-text-preview";
   "llama-3.2-90b-text-preview"].

#[local] Set Warnings "-inexact-float".

(** [GroqAPILLM.INPUT_TYPES].  [loaded] is what [load_prompt_options] comes
    back with for the two prompt files, [None] when it raises: the [except]
    branch then goes on with no prompt option (its [print] goes to the
    console). *)
Definition INPUT_TYPES (loaded : option (list (string * string)))
  : list (string * list (string * InputSpec)) :=
  let prompt_options :=
    match loaded with
    | Some prompt_options => prompt_options
    | None => []
    end in
  [("required",
    [("model",
      Choice LLM_MODELS "Select the Large Language Model (LLM) to use.");
     ("preset",
      Choice ([DEFAULT_PROMPT] ++ dict_keys prompt_options)
        "Select a preset or custom prompt for guiding the LLM.");
     ("system_message",
      StringInput (Some true) ""
        "Optional system message to guide the LLM's behavior.");
     ("user_input",
      StringInput (Some true) ""
        "User input or prompt to generate a response from the LLM.");
     ("temperature",
      FloatInput 0.85 0.1 2.0 0.05 "Controls randomness in responses.");
     ("max_tokens",
      IntInput 1024 1 131072 (Some 1%Z)
        "Maximum number of tokens to generate in the response.");
     ("top_p",
      FloatInput 1.0 0.1 1.0 0.01
        "Limits the pool of words the model can choose from based on their combined probability.");
     ("seed",
      IntInput 42 0 4294967295 None
        "Seed for random number generation, ensuring reproducibility.");
     ("max_retries",
      IntInput 2 1 10 (Some 1%Z)
        "Maximum number of retries in case of request failure.");
     ("stop",
      StringInput None ""
        "Stop generation when the specified sequence is encountered.");
     ("json_mode",
      BooleanInput false "Enable JSON mode for structured output.");
     ("conversation_id",
      StringInput None ""
        "Unique identifier for the conversation. Leave empty for a new conversation.")])].

(** The presets the host lets the user choose from. *)
Definition preset_choices (loaded : option (list (string * string)))
  : list string :=
  match dict_get (INPUT_TYPES loaded) "required" with
  | Some required =>
      match dict_get required "preset" with
      | Some (Choice options _) => options
      | _ => []
      end
  | None => []
  end.

(** ** Further notions *)

(** User and assistant messages in which every assistant message comes
    directly after a user message; [after_user] tells whether the message
    before the first was a user message. *)
Fixpoint dialogue (after_user : bool) (ms : list Message) : bool :=
  match ms with
  | [] => true
  | m :: ms' =>
      if String.eqb (role m) "user" then dialogue true ms'
      else if String.eqb (role m) "assistant"
           then after_user && dialogue false ms'
           else false
  end.

(** A conversation: a system message, then a dialogue that is not empty (so
    that it starts with a user message). *)
Definition conversation_shape (ms : list Message) : bool :=
  match ms with
  | s :: rest =>
      String.eqb (role s) "system" && list_truthy rest && dialogue false rest
  | [] => false
  end.

(** The state after a second conversation has been started, with identifier
    "decaf", beside the one of [one_turn_world]. *)
Definition two_conversations_world : World :=
  (sample_call {| uuid4 := "decaf"; post := post always_completes |}
     "Be formal." "Good day" "" one_turn_world).2.

(** * Properties *)

(** ** Dictionaries *)

Section PyDictFacts.
Context {V : Type}.
Implicit Types (d : list (string * V)) (k : string) (v : V).

Lemma dict_get_set_eq d k v : dict_get (dict_set d k v) k = Some v.
Proof.
  induction d as [|[k' v'] d IH]; simpl.
  - by rewrite String.eqb_refl.
  - destruct (String.eqb_spec k' k) as [->|Hne]; simpl.
    + by rewrite String.eqb_refl.
    + by destruct (String.eqb_spec k' k).
Qed.

Lemma dict_get_set_ne d k k' v :
  k ≠ k' → dict_get (dict_set d k v) k' = dict_get d k'.
Proof.
  intros Hne. induction d as [|[k0 v0] d IH]; simpl.
  - by destruct (String.eqb_spec k k').
  - destruct (String.eqb_spec k0 k) as [->|Hk]; simpl.
    + by destruct (String.eqb_spec k k').
    + by rewrite IH.
Qed.

Lemma dict_get_Some d k v : dict_get d k = Some v → (k, v) ∈ d.
Proof.
  induction d as [|[k' v'] d IH]; simpl; [done|].
  destruct (String.eqb_spec k' k) as [->|Hk].
  - intros [= ->]. left.
  - intros H. right. auto.
Qed.

Lemma dict_get_None d k : dict_get d k = None ↔ k ∉ dict_keys d.
Proof.
  unfold dict_keys. induction d as [|[k' v'] d IH]; csimpl.
  - split; [intros _; apply not_elem_of_nil | done].
  - rewrite not_elem_of_cons. destruct (String.eqb_spec k' k) as [->|Hk].
    + split; [done | intros [? _]; done].
    + rewrite IH. split; [by split|by intros [_ ?]].
Qed.

Lemma dict_set_keys d k v :
  dict_keys (dict_set d k v) =
  match dict_get d k with
  | Some _ => dict_keys d
  | None => dict_keys d ++ [k]
  end.
Proof.
  unfold dict_keys. induction d as [|[k' v'] d IH]; csimpl; [done|].
  destruct (String.eqb_spec k' k) as [->|Hk]; csimpl; [done|].
  rewrite IH. by destruct (dict_get d k).
Qed.

Lemma dict_set_values d k v x :
  x ∈ (dict_set d k v).*2 → x = v ∨ x ∈ d.*2.
Proof.
  induction d as [|[k' v'] d IH]; csimpl.
  - rewrite list_elem_of_singleton. auto.
  - destruct (String.eqb_spec k' k) as [->|Hk]; csimpl;
      rewrite !elem_of_cons; intuition.
Qed.

Lemma dict_set_values_NoDup d k v :
  v ∉ d.*2 → NoDup d.*2 → NoDup (dict_set d k v).*2.
Proof.
  induction d as [|[k' v'] d IH]; csimpl; intros Hv Hd.
  - apply NoDup_singleton.
  - apply not_elem_of_cons in Hv as [Hv1 Hv2].
    apply NoDup_cons in Hd as [Hd1 Hd2].
    destruct (String.eqb_spec k' k) as [->|Hk]; csimpl.
    + by apply NoDup_cons.
    + apply NoDup_cons. split; [|by apply IH].
      intros Hin. apply dict_set_values in Hin as [->|Hin]; done.
Qed.

Lemma dict_set_keys_NoDup d k v :
  NoDup (dict_keys d) → NoDup (dict_keys (dict_set d k v)).
Proof.
  intros Hd. rewrite dict_set_keys.
  destruct (dict_get d k) eqn:Hg; [done|].
  apply NoDup_app. split_and!; [done| |apply NoDup_singleton].
  intros x Hx ->%list_elem_of_singleton. by apply dict_get_None in Hg.
Qed.

End PyDictFacts.

Lemma with_wire_app w r1 r2 :
  with_wire (with_wire w r1) r2 = with_wire w (r1 ++ r2).
Proof. unfold with_wire; simpl. by rewrite <- (assoc_L (++)). Qed.

Lemma attempt_loop_attempts env data headers url remaining attempt last w :
  attempt_loop env data headers url remaining attempt last w =
  let rq := request_of w data headers url in
  let '(r, k) := attempts (post env rq) remaining attempt last in
  (r, with_wire w (replicate k rq)).
Proof.
  revert attempt last w.
  induction remaining as [|n IH]; intros attempt last w; simpl.
  - unfold ret, with_wire; simpl. rewrite app_nil_r. by destruct w.
  - unfold bind, send. fold (request_of w data headers url).
    set (rq := request_of w data headers url).
    fold (with_wire w [rq]).
    destruct (post env rq attempt) as [text status|text status] eqn:Hp.
    + done.
    + rewrite IH. simpl.
      replace (request_of (with_wire w [rq]) data headers url) with rq by done.
      destruct (attempts (post env rq) n (S attempt) (text, status)) as [r k].
      by rewrite with_wire_app.
Qed.

Lemma appended_appended l ms1 ms2 w :
  appended l ms2 (appended l ms1 w) = appended l (ms1 ++ ms2) w.
Proof.
  unfold appended; simpl. f_equal.
  rewrite list_alter_alter_eq. apply list_alter_ext; [|done].
  intros x _; simpl. by rewrite <- (assoc_L (++)).
Qed.

Lemma list_append_appended l m w : list_append l m w = (tt, appended l [m] w).
Proof. done. Qed.

Lemma deref_appended_eq l ms w :
  l < length (heap w) → deref (appended l ms w) l = deref w l ++ ms.
Proof.
  intros Hl. unfold deref, appended; simpl. rewrite list_lookup_alter_eq.
  destruct (lookup_lt_is_Some_2 (heap w) l Hl) as [old Hold]. by rewrite Hold.
Qed.

Lemma deref_appended_ne l l' ms w :
  l ≠ l' → deref (appended l ms w) l' = deref w l'.
Proof.
  intros Hl. unfold deref, appended; simpl. by rewrite list_lookup_alter_ne.
Qed.

Lemma wf_appended l ms w : wf w → wf (appended l ms w).
Proof.
  intros (Hb & Hk & Hv). split_and!; simpl; [|done..].
  intros l' Hl'. rewrite length_alter. auto.
Qed.

Lemma elem_of_values {V} (d : list (string * V)) k v :
  dict_get d k = Some v → v ∈ d.*2.
Proof.
  intros H%dict_get_Some. apply list_elem_of_fmap. by exists (k, v).
Qed.

Lemma known_keys w id : known w id = true ↔ id ∈ dict_keys (conversations w).
Proof.
  unfold known. pose proof (dict_get_None (conversations w) id) as H.
  destruct (dict_get (conversations w) id) as [l|].
  - split; [intros _|done].
    destruct (decide (id ∈ dict_keys (conversations w))) as [|Hnin]; [done|].
    by apply H in Hnin.
  - split; [done|]. intros Hin. by apply H in Hin.
Qed.

(** *** New list objects *)

Lemma deref_allocated_old ms w l :
  l < length (heap w) → deref (allocated ms w) l = deref w l.
Proof. intros Hl. unfold deref, allocated; simpl. by rewrite lookup_app_l. Qed.

Lemma deref_allocated_new ms w : deref (allocated ms w) (length (heap w)) = ms.
Proof. unfold deref, allocated; simpl. by rewrite list_lookup_middle. Qed.

Lemma wf_allocated ms w : wf w → wf (allocated ms w).
Proof.
  intros (Hb & Hk & Hv). split_and!; simpl; [|done..].
  intros l Hl%Hb. rewrite length_app; simpl. lia.
Qed.

Lemma stored_allocated ms w id :
  wf w → stored (allocated ms w) id = stored w id.
Proof.
  intros (Hb & _). unfold stored. change (conversations (allocated ms w))
    with (conversations w).
  destruct (dict_get (conversations w) id) as [l|] eqn:Hg; [|done].
  apply deref_allocated_old, Hb. by eapply elem_of_values.
Qed.

Lemma fresh_not_stored w l :
  wf w → length (heap w) ≤ l → l ∉ (conversations w).*2.
Proof. intros (Hb & _) Hl Hin%Hb. lia. Qed.

(** *** Appending to a list the table does not hold *)

Lemma stored_appended_other l ms w id :
  l ∉ (conversations w).*2 → stored (appended l ms w) id = stored w id.
Proof.
  intros Hl. unfold stored. change (conversations (appended l ms w))
    with (conversations w).
  destruct (dict_get (conversations w) id) as [l'|] eqn:Hg; [|done].
  apply deref_appended_ne. intros ->. apply Hl. by eapply elem_of_values.
Qed.

(** *** Entering a list in the table *)

Lemma stored_entered_eq id l w : stored (entered id l w) id = deref w l.
Proof. unfold stored, entered; simpl. by rewrite dict_get_set_eq. Qed.

Lemma stored_entered_ne id id' l w :
  id ≠ id' → stored (entered id l w) id' = stored w id'.
Proof.
  intros Hne. unfold stored, entered; simpl. by rewrite dict_get_set_ne.
Qed.

Lemma wf_entered id l w :
  wf w → l < length (heap w) → l ∉ (conversations w).*2 →
  wf (entered id l w).
Proof.
  intros (Hb & Hk & Hv) Hl Hnin. split_and!; simpl.
  - intros l' [->|Hl']%dict_set_values; auto.
  - by apply dict_set_keys_NoDup.
  - by apply dict_set_values_NoDup.
Qed.

Lemma keys_entered id l w :
  dict_keys (conversations (entered id l w)) =
  dict_keys (conversations w) ++ (if known w id then [] else [id]).
Proof.
  unfold entered, known; simpl. rewrite dict_set_keys.
  destruct (dict_get (conversations w) id); [by rewrite app_nil_r|done].
Qed.

(** *** [get_history] *)

(** What [get_history] does when the identifier is known, and when it is
    not. *)
Lemma get_history_known id l0 w :
  dict_get (conversations w) id = Some l0 →
  get_history id w = (length (heap w), allocated (deref w l0) w).
Proof. intros Hg. unfold get_history, bind. by rewrite Hg. Qed.

Lemma get_history_unknown id w :
  dict_get (conversations w) id = None →
  get_history id w =
  (S (length (heap w)),
   allocated [] (entered id (length (heap w)) (allocated [] w))).
Proof.
  intros Hg. unfold get_history, bind. rewrite Hg.
  unfold list_new, ret, list_copy, allocated, entered, deref; simpl.
  rewrite length_app, list_lookup_middle by done; simpl.
  by rewrite Nat.add_1_r.
Qed.

Lemma get_history_stored id w :
  wf w → let '(l, w') := get_history id w in deref w' l = stored w id.
Proof.
  intros Hwf. unfold stored.
  destruct (dict_get (conversations w) id) as [l0|] eqn:Hg.
  - rewrite (get_history_known _ _ _ Hg). apply deref_allocated_new.
  - rewrite (get_history_unknown _ _ Hg).
    replace (S (length (heap w)))
      with (length (heap (entered id (length (heap w)) (allocated [] w))))
      by (simpl; rewrite length_app; simpl; lia).
    apply deref_allocated_new.
Qed.

(** A state in which an empty conversation has just been entered under
    [id], as [create_new_conversation] and [get_history] on an unknown
    identifier leave it. *)
Lemma entered_empty_spec id w :
  wf w →
  let w1 := entered id (length (heap w)) (allocated [] w) in
  wf w1 ∧
  dict_get (conversations w1) id = Some (length (heap w)) ∧
  stored w1 id = [] ∧
  (∀ id', id' ≠ id → stored w1 id' = stored w id') ∧
  (∀ id' l', id' ≠ id → dict_get (conversations w) id' = Some l' →
             dict_get (conversations w1) id' = Some l' ∧
             deref w1 l' = deref w l') ∧
  dict_keys (conversations w1) =
    dict_keys (conversations w) ++ (if known w id then [] else [id]).
Proof.
  intros Hwf w1.
  assert (Hwfa : wf (allocated [] w)) by by apply wf_allocated.
  assert (Hnew : length (heap w) ∉ (conversations (allocated [] w)).*2).
  { by apply (fresh_not_stored w). }
  split_and!.
  - apply wf_entered; [done| |done]. simpl. rewrite length_app; simpl. lia.
  - simpl. apply dict_get_set_eq.
  - unfold w1. rewrite stored_entered_eq. apply deref_allocated_new.
  - intros id' Hne. unfold w1.
    rewrite stored_entered_ne by done. by apply stored_allocated.
  - intros id' l' Hne Hg. split.
    + simpl. by rewrite dict_get_set_ne.
    + apply (deref_allocated_old [] w). destruct Hwf as (Hb & _).
      apply Hb. by eapply elem_of_values.
  - apply (keys_entered id (length (heap w)) (allocated [] w)).
Qed.

(** The state after [get_history] has copied the list of a known
    identifier. *)
Lemma copied_spec id l0 w :
  wf w →
  dict_get (conversations w) id = Some l0 →
  let l := length (heap w) in
  let w0 := allocated (deref w l0) w in
  wf w0 ∧
  l < length (heap w0) ∧
  (l ∉ (conversations w0).*2) ∧
  deref w0 l = stored w id ∧
  (∀ id', stored w0 id' = stored w id') ∧
  (∀ id' l', dict_get (conversations w) id' = Some l' →
             dict_get (conversations w0) id' = Some l' ∧
             deref w0 l' = deref w l').
Proof.
  intros Hwf Hg l w0. split_and!.
  - by apply wf_allocated.
  - simpl. rewrite length_app; simpl. lia.
  - by apply (fresh_not_stored w).
  - unfold stored. rewrite Hg. apply deref_allocated_new.
  - intros id'. by apply stored_allocated.
  - intros id' l' Hg'. split; [done|].
    apply deref_allocated_old. destruct Hwf as (Hb & _).
    apply Hb. by eapply elem_of_values.
Qed.

(** *** Lines 107-111 *)

Lemma locate_spec env cid w id l w0 :
  wf w →
  locate env cid w = ((id, l), w0) →
  id = turn_id env cid ∧
  wire w0 = wire w ∧
  wf w0 ∧
  l < length (heap w0) ∧
  (l ∉ (conversations w0).*2) ∧
  deref w0 l = history_before w cid ∧
  stored w0 id = history_before w cid ∧
  known w0 id = true ∧
  (∀ id', id' ≠ id → stored w0 id' = stored w id') ∧
  dict_keys (conversations w0) =
    dict_keys (conversations w) ++ (if known w id then [] else [id]) ∧
  (∀ id' l', id' ≠ id ∨ str_truthy cid = true →
             dict_get (conversations w) id' = Some l' →
             dict_get (conversations w0) id' = Some l' ∧
             deref w0 l' = deref w l').
Proof.
  intros Hwf. unfold locate, bind, turn_id, history_before.
  assert (Hempty : ∀ id0,
    let w1 := entered id0 (length (heap w)) (allocated [] w) in
    get_history id0 w1 = (l, w0) →
    (dict_get (conversations w) id0 = None ∨ str_truthy cid = false) →
    wire w0 = wire w ∧ wf w0 ∧ l < length (heap w0) ∧
    (l ∉ (conversations w0).*2) ∧ deref w0 l = [] ∧ stored w0 id0 = [] ∧
    known w0 id0 = true ∧
    (∀ id', id' ≠ id0 → stored w0 id' = stored w id') ∧
    dict_keys (conversations w0) =
      dict_keys (conversations w) ++ (if known w id0 then [] else [id0]) ∧
    (∀ id' l', id' ≠ id0 ∨ str_truthy cid = true →
               dict_get (conversations w) id' = Some l' →
               dict_get (conversations w0) id' = Some l' ∧
               deref w0 l' = deref w l')).
  { intros id0 w1 Hget Hcase.
    destruct (entered_empty_spec id0 w Hwf)
      as (Hwf1 & Hg1 & Hst1 & Hfr1 & Hen1 & Hk1). fold w1 in Hwf1, Hg1, Hst1,
      Hfr1, Hen1, Hk1.
    assert (Hwire1 : wire w1 = wire w) by done.
    clearbody w1.
    rewrite (get_history_known _ _ _ Hg1) in Hget.
    injection Hget as <- <-.
    destruct (copied_spec id0 _ w1 Hwf1 Hg1)
      as (Hwf0 & Hl & Hnin & Hd & Hst0 & Hen0).
    split_and!; try done.
    - by rewrite Hd.
    - by rewrite Hst0.
    - unfold known. change (conversations (allocated _ w1))
        with (conversations w1). by rewrite Hg1.
    - intros id' Hne. rewrite Hst0. by apply Hfr1.
    - intros id' l' Hor Hg.
      assert (Hne : id' ≠ id0).
      { intros ->. destruct Hcase as [Hnone|Hc]; [congruence|].
        destruct Hor as [?|Hc']; [done|congruence]. }
      destruct (Hen1 id' l' Hne Hg) as [Hg' Hd'].
      destruct (Hen0 id' l' Hg') as [Hg'' Hd''].
      split; [done|]. by rewrite Hd''. }
  destruct (str_truthy cid) eqn:Hc; cbn [negb].
  - unfold ret at 1.
    destruct (dict_get (conversations w) cid) as [l0|] eqn:Hg.
    + rewrite (get_history_known _ _ _ Hg). unfold ret.
      intros [= <- <- <-].
      destruct (copied_spec cid l0 w Hwf Hg)
        as (Hwf0 & Hl & Hnin & Hd & Hst0 & Hen0).
      split_and!; try done.
      * unfold known. change (conversations (allocated _ w))
          with (conversations w). by rewrite Hg.
      * unfold known. rewrite Hg. by rewrite app_nil_r.
      * intros id' l' _. apply Hen0.
    + rewrite (get_history_unknown _ _ Hg). unfold ret.
      intros [= <- Hl Hw0].
      assert (Hst : stored w cid = []) by (unfold stored; by rewrite Hg).
      rewrite Hst.
      specialize (Hempty cid). cbv zeta in Hempty.
      rewrite (get_history_known cid (length (heap w))) in Hempty
        by apply dict_get_set_eq.
      unfold allocated at 1, entered, deref in Hempty; simpl in Hempty.
      rewrite length_app, list_lookup_middle in Hempty by done.
      simpl in Hempty. rewrite Nat.add_1_r in Hempty.
      subst l w0. split; [done|]. apply Hempty; [done|by left].
  - unfold create_new_conversation, bind, list_new, ret.
    cbv beta iota zeta.
    change ({| heap := heap {| heap := heap w ++ [[]];
                                conversations := conversations w;
                                wire := wire w |};
               conversations := _; wire := _ |})
      with (entered (uuid4 env) (length (heap w)) (allocated [] w)).
    destruct (get_history _ _) as [l1 w1] eqn:Hget.
    intros [= <- <- <-]. split; [done|].
    apply (Hempty (uuid4 env)); [done|by right].
Qed.

Lemma serialise_request_data w model l temperature max_tokens top_p seed stop :
  serialise w (request_data model l temperature max_tokens top_p seed stop) =
  request_body model (deref w l) temperature max_tokens top_p seed stop.
Proof. unfold request_data, request_body. by destruct (str_truthy stop). Qed.

Section NodeFacts.
Variable get_prompt_content : list (string * string) → string → string.
Variable json_dumps : list (string * list Message) → string.

Local Abbreviation pcr :=
  (process_completion_request get_prompt_content json_dumps).

Lemma process_completion_request_run self env model preset system_message
    user_input temperature max_tokens top_p seed max_retries stop json_mode
    cid w :
  pcr self env model preset system_message user_input temperature
      max_tokens top_p seed max_retries stop json_mode cid w =
  let sys := resolve_system_message get_prompt_content self preset
               system_message in
  let '((id, l), w0) := locate env cid w in
  let w1 := appended l (opening (deref w0 l) sys user_input) w0 in
  let data := request_data model l temperature max_tokens top_p seed stop in
  let rq := request_of w1 data (auth_headers self) API_URL in
  let '((msg, ok, st), k) :=
    attempts (post env rq) (Z.to_nat max_retries) 0 ("", "") in
  let w2 := with_wire w1 (replicate k rq) in
  let w3 :=
    if ok then (update_history id l (appended l [assistant_turn msg] w2)).2
    else w2 in
  ({| api_response := msg; success := ok; status_code := st;
      conversation_id := id;
      chat_history := json_dumps (snapshot w3 (conversations w3)) |}, w3).
Proof.
  unfold process_completion_request, locate, bind.
  destruct (if negb (str_truthy cid) then create_new_conversation env w
            else ret cid w) as [id wa] eqn:Ha.
  replace ((if negb (str_truthy cid) then create_new_conversation env
            else ret cid) w) with (id, wa)
    by (by destruct (str_truthy cid)).
  destruct (get_history id wa) as [l w0] eqn:Hg.
  unfold list_read. change (ret (id, l) w0) with ((id, l), w0).
  cbv beta iota zeta.
  set (sys := resolve_system_message _ _ _ _).
  assert (Hopen : ∀ w',
    (if negb (list_truthy (deref w0 l))
     then list_append l {| role := "system"; content := sys |}
     else ret ()) w0 = ((), w') →
    (list_append l {| role := "user"; content := user_input |} w').2 =
    appended l (opening (deref w0 l) sys user_input) w0).
  { intros w'. unfold opening.
    destruct (list_truthy (deref w0 l)); cbn [negb]; unfold ret;
      rewrite !list_append_appended; intros [= <-]; cbn [snd].
    - done.
    - by rewrite appended_appended. }
  destruct ((if negb (list_truthy (deref w0 l))
             then list_append l {| role := "system"; content := sys |}
             else ret ()) w0) as [[] w'] eqn:Hs.
  specialize (Hopen w' eq_refl).
  destruct (list_append l {| role := "user"; content := user_input |} w')
    as [[] w1] eqn:Hu.
  simpl in Hopen. subst w1.
  set (w1 := appended l _ w0).
  replace (if str_truthy stop then dict_set _ "stop" (PyStr stop) else _)
    with (request_data model l temperature max_tokens top_p seed stop)
    by (unfold request_data; by destruct (str_truthy stop)).
  unfold make_api_request. rewrite attempt_loop_attempts.
  fold API_URL. fold (auth_headers self). cbv beta iota zeta.
  destruct (attempts _ _ _ _) as [[[msg ok] st] k].
  destruct ok; reflexivity.
Qed.

(** What a call does, in terms of what is stored. *)
Lemma process_completion_request_effect self env model preset
    system_message user_input temperature max_tokens top_p seed max_retries
    stop json_mode cid w out w' :
  wf w →
  pcr self env model preset system_message user_input temperature
      max_tokens top_p seed max_retries stop json_mode cid w = (out, w') →
  let sys := resolve_system_message get_prompt_content self preset
               system_message in
  let id := turn_id env cid in
  let old := history_before w cid in
  let sent := old ++ opening old sys user_input in
  let rq := {| req_url := API_URL; req_headers := auth_headers self;
               req_json := request_body model sent temperature max_tokens
                             top_p seed stop |} in
  ∃ k,
    attempts (post env rq) (Z.to_nat max_retries) 0 ("", "") =
      ((api_response out, success out, status_code out), k) ∧
    conversation_id out = id ∧
    chat_history out = json_dumps (snapshot w' (conversations w')) ∧
    wire w' = wire w ++ replicate k rq ∧
    wf w' ∧
    stored w' id =
      (if success out then sent ++ [assistant_turn (api_response out)]
       else old) ∧
    (∀ id', id' ≠ id → stored w' id' = stored w id') ∧
    dict_keys (conversations w') =
      dict_keys (conversations w) ++ (if known w id then [] else [id]) ∧
    (success out = false →
     ∀ id' l', id' ≠ id ∨ str_truthy cid = true →
               dict_get (conversations w) id' = Some l' →
               dict_get (conversations w') id' = Some l' ∧
               deref w' l' = deref w l').
Proof.
  intros Hwf. rewrite process_completion_request_run. cbv zeta.
  destruct (locate env cid w) as [[id l] w0] eqn:Hloc.
  destruct (locate_spec _ _ _ _ _ _ Hwf Hloc)
    as (-> & Hwire & Hwf0 & Hl & Hnin & Hold & Hst0 & Hkn0 & Hfr0 & Hkeys0
        & Hen0).
  rewrite Hold.
  set (sent := history_before w cid ++ _).
  set (w1 := appended l _ w0).
  assert (Hsent : deref w1 l = sent)
    by (subst w1; by rewrite deref_appended_eq, Hold).
  assert (Hst1 : ∀ id', stored w1 id' = stored w0 id')
    by (intros id'; by apply stored_appended_other).
  assert (Hl1 : l < length (heap w1))
    by (subst w1; simpl; by rewrite length_alter).
  unfold request_of. rewrite serialise_request_data, Hsent.
  set (rq := Build_Request _ _ _).
  destruct (attempts _ _ _ _) as [[[msg ok] st] k] eqn:Hatt.
  set (w2 := with_wire w1 (replicate k rq)).
  set (w3 := if ok then _ else _).
  intros [= <- <-]; cbn [api_response success status_code conversation_id
                         chat_history].
  exists k.
  assert (Hwf1 : wf w1) by by apply wf_appended.
  split_and!; try done.
  - destruct ok; subst w3 w2 w1; simpl; by rewrite Hwire.
  - destruct ok; subst w3 w2; [|done].
    change (wf (entered (turn_id env cid) l
                  (appended l [assistant_turn msg]
                     (with_wire w1 (replicate k rq))))).
    apply wf_entered.
    + by apply wf_appended.
    + simpl. by rewrite length_alter.
    + done.
  - destruct ok; subst w3 w2.
    + change (stored (entered (turn_id env cid) l
                        (appended l [assistant_turn msg]
                           (with_wire w1 (replicate k rq))))
                (turn_id env cid) = sent ++ [assistant_turn msg]).
      rewrite stored_entered_eq.
      change (deref (appended l [assistant_turn msg] w1) l =
              sent ++ [assistant_turn msg]).
      by rewrite deref_appended_eq, Hsent.
    + change (stored w1 (turn_id env cid) = history_before w cid).
      by rewrite Hst1.
  - intros id' Hid.
    assert (stored w3 id' = stored w1 id') as ->.
    { destruct ok; subst w3 w2; [|done].
      change (stored (entered (turn_id env cid) l
                        (appended l [assistant_turn msg]
                           (with_wire w1 (replicate k rq)))) id' =
              stored w1 id').
      rewrite stored_entered_ne by done.
      change (stored (appended l [assistant_turn msg] w1) id' = stored w1 id').
      by apply stored_appended_other. }
    rewrite Hst1. by apply Hfr0.
  - rewrite <- Hkeys0. destruct ok; subst w3 w2; [|done].
    change (dict_keys (conversations (entered (turn_id env cid) l w0)) =
            dict_keys (conversations w0)).
    by rewrite keys_entered, Hkn0, app_nil_r.
  - intros -> id' l' Hor Hg. subst w3 w2.
    destruct (Hen0 id' l' Hor Hg) as [Hg0 Hd0]. split; [done|].
    change (deref w1 l' = deref w l'). rewrite <- Hd0.
    apply deref_appended_ne. intros ->. apply Hnin. by eapply elem_of_values.
Qed.

End NodeFacts.

Section MoreNodeFacts.
Variable get_prompt_content : list (string * string) → string → string.
Variable json_dumps : list (string * list Message) → string.

Lemma wf_initial_world : wf initial_world.
Proof. by apply (bool_decide_unpack _). Qed.

(** Every state the manager gets into is well formed. *)
Lemma reachable_wf w :
  reachable get_prompt_content json_dumps w → wf w.
Proof.
  induction 1 as [|self env model preset system_message user_input temperature
    max_tokens top_p seed max_retries stop json_mode cid w out w' _ IH Hrun].
  - apply wf_initial_world.
  - destruct (process_completion_request_effect _ _ _ _ _ _ _ _ _ _ _ _ _ _
                _ _ _ _ _ IH Hrun) as (k & _ & _ & _ & _ & Hwf & _).
    exact Hwf.
Qed.
End MoreNodeFacts.

(** ** The retry loop *)

Lemma attempts_le answer remaining attempt last :
  (attempts answer remaining attempt last).2 ≤ remaining.
Proof.
  revert attempt last. induction remaining as [|n IH]; intros a last; simpl.
  - done.
  - destruct (answer a) as [t s|t s]; simpl; [lia|].
    specialize (IH (S a) (t, s)).
    destruct (attempts answer n (S a) (t, s)) as [r k]; simpl in *. lia.
Qed.

Lemma attempts_all_failed answer remaining attempt last :
  (∀ i, attempt ≤ i < attempt + remaining → is_failed (answer i)) →
  attempts answer remaining attempt last =
  (match remaining with
   | O => (last.1, false, last.2)
   | S n => (outcome_text (answer (attempt + n)), false,
             outcome_status (answer (attempt + n)))
   end, remaining).
Proof.
  revert attempt last. induction remaining as [|n IH]; intros a last Hf; simpl.
  - done.
  - assert (Ha : is_failed (answer a)) by (apply Hf; lia).
    destruct (answer a) as [t s|t s] eqn:Hans; [done|].
    rewrite IH by (intros i Hi; apply Hf; lia).
    destruct n as [|n]; simpl.
    + by rewrite Nat.add_0_r, Hans.
    + by rewrite Nat.add_succ_r.
Qed.

Lemma attempts_failed_then_completed answer remaining last t0 s0 text status :
  answer 0 = Failed t0 s0 →
  answer 1 = Completed text status →
  attempts answer (S (S remaining)) 0 last = ((text, true, status), 2).
Proof. intros H0 H1. simpl. by rewrite H0, H1. Qed.

Lemma attempts_pos answer remaining attempt last :
  0 < remaining → 0 < (attempts answer remaining attempt last).2.
Proof.
  destruct remaining as [|n]; [lia|]. intros _. simpl.
  destruct (answer attempt) as [t s|t s]; simpl; [lia|].
  destruct (attempts answer n (S attempt) (t, s)); simpl. lia.
Qed.

(** ** Counting and keys *)

Lemma system_count_app ms1 ms2 :
  system_count (ms1 ++ ms2) = system_count ms1 + system_count ms2.
Proof. unfold system_count. by rewrite filter_app, length_app. Qed.

Lemma list_truthy_true {A} (l : list A) : l ≠ [] → list_truthy l = true.
Proof. by destruct l. Qed.

Lemma request_body_keys model messages temperature max_tokens top_p seed stop :
  dict_keys (request_body model messages temperature max_tokens top_p seed
               stop) =
  ["model"; "messages"; "temperature"; "max_tokens"; "top_p"; "seed"]
  ++ (if decide (stop = "") then [] else ["stop"]).
Proof. by destruct stop. Qed.

Lemma request_body_stop model messages temperature max_tokens top_p seed stop :
  dict_get (request_body model messages temperature max_tokens top_p seed
              stop) "stop" =
  if decide (stop = "") then None else Some (JStr stop).
Proof. by destruct stop. Qed.

Lemma str_truthy_empty s : str_truthy s = false ↔ s = "".
Proof. by destruct s. Qed.

(** * The method, one call at a time *)

Section Method.
Variable get_prompt_content : list (string * string) → string → string.
Variable json_dumps : list (string * list Message) → string.

(** C1.  For a new conversation (the identifier is empty, or nothing or an
    empty list is stored for it), an invocation whose request succeeds leaves
    exactly three messages stored for the identifier it returns: the system
    message, the user message and the assistant's answer, in that order, so
    that exactly one message has the system role. *)
Theorem new_conversation_holds_three_messages self env model preset
    system_message user_input temperature max_tokens top_p seed max_retries
    stop json_mode cid w out w' :
  wf w →
  history_before w cid = [] →
  process_completion_request get_prompt_content json_dumps self env model
    preset system_message user_input temperature max_tokens top_p seed
    max_retries stop json_mode cid w = (out, w') →
  success out = true →
  stored w' (conversation_id out) =
    [system_turn (resolve_system_message get_prompt_content self preset
                    system_message);
     user_turn user_input;
     assistant_turn (api_response out)] ∧
  system_count (stored w' (conversation_id out)) = 1.
Proof.
  intros Hwf Hnew Hrun Hok.
  destruct (process_completion_request_effect _ _ _ _ _ _ _ _ _ _ _ _ _ _
              _ _ _ _ _ Hwf Hrun) as (k & _ & -> & _ & _ & _ & Hst & _).
  rewrite Hok, Hnew in Hst. rewrite Hst. split; reflexivity.
Qed.



(** C4.  An invocation with an identifier (a non-empty string) for which a
    non-empty history is stored inserts no system message: what is stored
    afterwards is the history found, followed, if the request succeeded, by
    the user message and the assistant's answer, and it has as many system
    messages as before.  A system message is only ever put at the head of an
    empty history, so in every state the node gets into, each conversation
    that has messages starts with a message of role system. *)
Theorem system_message_only_for_empty_history :
  (∀ self env model preset system_message user_input temperature max_tokens
     top_p seed max_retries stop json_mode cid w out w',
     wf w →
     str_truthy cid = true →
     stored w cid ≠ [] →
     process_completion_request get_prompt_content json_dumps self env model
       preset system_message user_input temperature max_tokens top_p seed
       max_retries stop json_mode cid w = (out, w') →
     stored w' cid =
       stored w cid
       ++ (if success out
           then [user_turn user_input; assistant_turn (api_response out)]
           else []) ∧
     system_count (stored w' cid) = system_count (stored w cid)) ∧
  (∀ w id m,
     reachable get_prompt_content json_dumps w →
     head (stored w id) = Some m → role m = "system").
Proof.
  split.
  - intros * Hwf Hc Hne Hrun.
    destruct (process_completion_request_effect _ _ _ _ _ _ _ _ _ _ _ _ _ _
                _ _ _ _ _ Hwf Hrun) as (k & _ & _ & _ & _ & _ & Hst & _).
    unfold turn_id, history_before, opening in Hst. rewrite Hc in Hst.
    rewrite (list_truthy_true _ Hne) in Hst.
    assert (Hst' : stored w' cid =
              stored w cid ++
              (if success out
               then [user_turn user_input; assistant_turn (api_response out)]
               else [])).
    { rewrite Hst. destruct (success out); simpl.
      - by rewrite <- (assoc_L (++)).
      - by rewrite app_nil_r. }
    split; [done|]. rewrite Hst', !system_count_app.
    destruct (success out); unfold system_count; simpl; lia.
  - intros w id m Hreach. revert id m.
    induction Hreach as [|self env model preset system_message user_input
      temperature max_tokens top_p seed max_retries stop json_mode cid w out
      w' Hreach IH Hrun]; intros id m.
    + done.
    + apply reachable_wf in Hreach.
      destruct (process_completion_request_effect _ _ _ _ _ _ _ _ _ _ _ _ _
                  _ _ _ _ _ _ Hreach Hrun)
        as (k & _ & _ & _ & _ & _ & Hst & Hframe & _).
      destruct (decide (id = turn_id env cid)) as [->|Hid];
        [|rewrite Hframe by done; apply IH].
      rewrite Hst.
      set (old := history_before w cid).
      assert (Hold : ∀ m', head old = Some m' → role m' = "system").
      { unfold old, history_before. destruct (str_truthy cid); [apply IH|done]. }
      assert (Hsent : ∀ ms m', head (old ++ opening old
                 (resolve_system_message get_prompt_content self preset
                    system_message) user_input ++ ms) = Some m' →
               role m' = "system").
      { intros ms m'. destruct old as [|m0 old'] eqn:Ho.
        - simpl. by intros [= <-].
        - simpl. intros [= <-]. by apply Hold. }
      destruct (success out).
      * rewrite <- (assoc_L (++)). apply Hsent.
      * apply Hold.
Qed.

(** C5.  Every request an invocation sends has the same body: the keys
    model, messages, temperature, max_tokens, top_p and seed with the inputs
    as values, messages being the history found followed by what the call
    appends before the request (the system message if the history was empty,
    then the user message); and the key stop, with the input string as its
    value, if and only if that string is not empty.  At least one request is
    sent when [max_retries] is positive, and never more than
    [max_retries]. *)
Theorem request_body_of_every_attempt self env model preset system_message
    user_input temperature max_tokens top_p seed max_retries stop json_mode
    cid w out w' :
  wf w →
  process_completion_request get_prompt_content json_dumps self env model
    preset system_message user_input temperature max_tokens top_p seed
    max_retries stop json_mode cid w = (out, w') →
  let messages :=
    history_before w cid
    ++ opening (history_before w cid)
         (resolve_system_message get_prompt_content self preset
            system_message)
         user_input in
  let body :=
    [("model", JStr model);
     ("messages", JMessages messages);
     ("temperature", JFloat temperature);
     ("max_tokens", JInt max_tokens);
     ("top_p", JFloat top_p);
     ("seed", JInt seed)]
    ++ (if decide (stop = "") then [] else [("stop", JStr stop)]) in
  (∃ k, k ≤ Z.to_nat max_retries ∧
        ((0 < max_retries)%Z → 0 < k) ∧
        wire w' =
        wire w ++ replicate k {| req_url := API_URL;
                                 req_headers := auth_headers self;
                                 req_json := body |}) ∧
  dict_keys body =
    ["model"; "messages"; "temperature"; "max_tokens"; "top_p"; "seed"]
    ++ (if decide (stop = "") then [] else ["stop"]) ∧
  dict_get body "stop" = (if decide (stop = "") then None else Some (JStr stop)).
Proof.
  intros Hwf Hrun messages body.
  destruct (process_completion_request_effect _ _ _ _ _ _ _ _ _ _ _ _ _ _
              _ _ _ _ _ Hwf Hrun) as (k & Hatt & _ & _ & Hwire & _).
  assert (Hbody : body = request_body model messages temperature max_tokens
                           top_p seed stop) by (by destruct stop).
  rewrite Hbody. split_and!.
  - exists k. split_and!; [| |done];
      [|intros Hpos;
        pose proof (attempts_pos
          (post env {| req_url := API_URL; req_headers := auth_headers self;
                       req_json := request_body model messages temperature
                                     max_tokens top_p seed stop |})
          (Z.to_nat max_retries) 0 ("", "")) as Hge;
        fold messages in Hatt; rewrite Hatt in Hge; apply Hge; lia].
    pose proof (attempts_le
      (post env {| req_url := API_URL; req_headers := auth_headers self;
                   req_json := request_body model messages temperature
                                 max_tokens top_p seed stop |})
      (Z.to_nat max_retries) 0 ("", "")) as Hle.
    fold messages in Hatt. by rewrite Hatt in Hle.
  - apply request_body_keys.
  - apply request_body_stop.
Qed.

(** C6.  The identifier an invocation returns is the input identifier when
    that is not empty.  When it is empty, the identifier returned is the one
    generated for the new conversation, and if the request succeeded
    [get_history] finds it: it returns a list that holds what is stored for
    it, the three messages of the turn, and changes nothing else (the state
    afterwards is the state before with the returned list added). *)
Theorem returned_conversation_id self env model preset system_message
    user_input temperature max_tokens top_p seed max_retries stop json_mode
    cid w out w' :
  wf w →
  process_completion_request get_prompt_content json_dumps self env model
    preset system_message user_input temperature max_tokens top_p seed
    max_retries stop json_mode cid w = (out, w') →
  (cid ≠ "" → conversation_id out = cid) ∧
  (cid = "" →
   conversation_id out = uuid4 env ∧
   (success out = true →
    ∃ l w'',
      get_history (conversation_id out) w' = (l, w'') ∧
      w'' = allocated (stored w' (conversation_id out)) w' ∧
      deref w'' l = stored w' (conversation_id out) ∧
      deref w'' l =
        [system_turn (resolve_system_message get_prompt_content self
                        preset system_message);
         user_turn user_input;
         assistant_turn (api_response out)])).
Proof.
  intros Hwf Hrun.
  destruct (process_completion_request_effect _ _ _ _ _ _ _ _ _ _ _ _ _ _
              _ _ _ _ _ Hwf Hrun) as (k & _ & Hid & _ & _ & _ & Hst & _).
  rewrite Hid. unfold turn_id, history_before in *. split.
  - intros Hc. destruct cid; done.
  - intros ->. simpl in *. split; [done|]. intros Hok. rewrite Hok in Hst.
    unfold stored in Hst |- *.
    destruct (dict_get (conversations w') (uuid4 env)) as [l0|] eqn:Hg;
      [|done].
    rewrite (get_history_known _ _ _ Hg).
    exists (length (heap w')), (allocated (deref w' l0) w').
    split_and!; [done|done| |]; rewrite deref_allocated_new; done.
Qed.

(** C7.  With retry limit [max_retries] the request helper sends the same
    request at most [max_retries] times (not at all when the limit is not
    positive) and changes nothing else.  If every attempt up to the limit
    fails, it sends exactly [max_retries] requests and returns success=false
    with the text and status of the last failure.  If the first attempt fails
    and the second completes, it sends exactly two requests and returns
    success=true with the text and status of the second attempt. *)
Theorem make_api_request_attempts env data headers url max_retries w :
  let rq := request_of w data headers url in
  let n := Z.to_nat max_retries in
  let r := (make_api_request env data headers url max_retries w).1 in
  let w' := (make_api_request env data headers url max_retries w).2 in
  (∃ k, k ≤ n ∧ w' = with_wire w (replicate k rq)) ∧
  ((∀ i, i < n → is_failed (post env rq i)) →
   w' = with_wire w (replicate n rq) ∧
   r.1.2 = false ∧
   (0 < n →
    r = (outcome_text (post env rq (n - 1)), false,
         outcome_status (post env rq (n - 1))))) ∧
  (∀ text status,
     2 ≤ n →
     is_failed (post env rq 0) →
     post env rq 1 = Completed text status →
     w' = with_wire w [rq; rq] ∧ r = (text, true, status)).
Proof.
  intros rq n r w'. subst r w'. unfold make_api_request.
  rewrite attempt_loop_attempts. cbv zeta. fold rq. fold n.
  split_and!.
  - pose proof (attempts_le (post env rq) n 0 ("", "")) as Hle.
    destruct (attempts (post env rq) n 0 ("", "")) as [r k]; simpl in *.
    by exists k.
  - intros Hfail.
    rewrite attempts_all_failed by (intros i Hi; apply Hfail; lia).
    simpl. split_and!; [done|by destruct n|].
    intros Hn. destruct n as [|n']; [lia|]. simpl.
    by rewrite Nat.sub_0_r.
  - intros text status Hn Hf Hc.
    destruct n as [|[|n']]; [lia..|].
    destruct (post env rq 0) as [|t0 s0] eqn:H0; [done|].
    by rewrite (attempts_failed_then_completed _ _ _ t0 s0 text status).
Qed.

(** C8.  Two invocations that differ only in [json_mode] (same other inputs,
    same state, same environment) give the same five outputs and leave the
    same state, the requests on the wire included: [json_mode] is read
    nowhere. *)
Theorem json_mode_has_no_effect self env model preset system_message
    user_input temperature max_tokens top_p seed max_retries stop
    (json_mode1 json_mode2 : bool) cid w :
  process_completion_request get_prompt_content json_dumps self env model
    preset system_message user_input temperature max_tokens top_p seed
    max_retries stop json_mode1 cid w =
  process_completion_request get_prompt_content json_dumps self env model
    preset system_message user_input temperature max_tokens top_p seed
    max_retries stop json_mode2 cid w.
Proof. reflexivity. Qed.

(** C9.  With a preset other than the default prompt, the [system_message]
    input is not used: the invocation is the one the default preset would give
    with the preset's text as system message, whatever [system_message] is,
    so two invocations that differ only in [system_message] give the same
    outputs and leave the same state, the requests on the wire included.
    The system message used is the one [get_prompt_content] gives for the
    preset: on a new conversation it is the first message of every request
    sent (at least one when [max_retries] is positive), before the user
    message, and the first message stored when the request succeeds. *)
Theorem preset_overrides_system_message self env model preset system_message
    user_input temperature max_tokens top_p seed max_retries stop json_mode
    cid w :
  preset ≠ DEFAULT_PROMPT →
  process_completion_request get_prompt_content json_dumps self env model
    preset system_message user_input temperature max_tokens top_p seed
    max_retries stop json_mode cid w =
  process_completion_request get_prompt_content json_dumps self env model
    DEFAULT_PROMPT (get_prompt_content (prompt_options self) preset)
    user_input temperature max_tokens top_p seed max_retries stop json_mode
    cid w ∧
  (∀ system_message',
     process_completion_request get_prompt_content json_dumps self env model
       preset system_message user_input temperature max_tokens top_p seed
       max_retries stop json_mode cid w =
     process_completion_request get_prompt_content json_dumps self env model
       preset system_message' user_input temperature max_tokens top_p seed
       max_retries stop json_mode cid w) ∧
  (∀ out w',
     wf w →
     history_before w cid = [] →
     process_completion_request get_prompt_content json_dumps self env model
       preset system_message user_input temperature max_tokens top_p seed
       max_retries stop json_mode cid w = (out, w') →
     let messages :=
       [system_turn (get_prompt_content (prompt_options self) preset);
        user_turn user_input] in
     (∃ k, ((0 < max_retries)%Z → 0 < k) ∧
           wire w' =
           wire w ++ replicate k
             {| req_url := API_URL; req_headers := auth_headers self;
                req_json := request_body model messages temperature
                              max_tokens top_p seed stop |}) ∧
     (success out = true →
      stored w' (conversation_id out) =
        messages ++ [assistant_turn (api_response out)])).
Proof.
  intros Hp.
  assert (Hres : ∀ sm, resolve_system_message get_prompt_content self preset sm
                       = get_prompt_content (prompt_options self) preset).
  { intros sm. unfold resolve_system_message.
    by destruct (String.eqb_spec preset DEFAULT_PROMPT). }
  assert (Hdef : ∀ sm, resolve_system_message get_prompt_content self
                         DEFAULT_PROMPT sm = sm).
  { intros sm. unfold resolve_system_message. by rewrite String.eqb_refl. }
  split_and!.
  - unfold process_completion_request. cbv zeta. by rewrite Hres, Hdef.
  - intros sm'. unfold process_completion_request. cbv zeta.
    by rewrite !Hres.
  - intros out w' Hwf Hnew Hrun messages.
    destruct (process_completion_request_effect _ _ _ _ _ _ _ _ _ _ _ _ _ _
                _ _ _ _ _ Hwf Hrun)
      as (k & Hatt & -> & _ & Hwire & _ & Hst & _).
    rewrite Hnew, Hres in Hatt, Hwire, Hst.
    change ([] ++ opening [] (get_prompt_content (prompt_options self) preset)
                    user_input) with messages in Hatt, Hwire, Hst.
    split.
    + exists k. split; [|done]. intros Hpos.
      pose proof (attempts_pos
        (post env {| req_url := API_URL; req_headers := auth_headers self;
                     req_json := request_body model messages temperature
                                   max_tokens top_p seed stop |})
        (Z.to_nat max_retries) 0 ("", "")) as Hge.
      rewrite Hatt in Hge. apply Hge. lia.
    + intros Hok. by rewrite Hok in Hst.
Qed.

(** C10.  An invocation changes what is stored for one identifier at most,
    the one it returns: for every other identifier the messages stored before
    and after are the same. *)
Theorem other_conversations_untouched self env model preset system_message
    user_input temperature max_tokens top_p seed max_retries stop json_mode
    cid w out w' :
  wf w →
  process_completion_request get_prompt_content json_dumps self env model
    preset system_message user_input temperature max_tokens top_p seed
    max_retries stop json_mode cid w = (out, w') →
  ∀ id, id ≠ conversation_id out → stored w' id = stored w id.
Proof.
  intros Hwf Hrun.
  destruct (process_completion_request_effect _ _ _ _ _ _ _ _ _ _ _ _ _ _
              _ _ _ _ _ Hwf Hrun) as (k & _ & Hid & _ & _ & _ & _ & Hfr & _).
  rewrite Hid. exact Hfr.
Qed.

End Method.
(** * The method on the concrete node *)

Lemma new_conversation_holds_three_messages_witness :
  stored one_turn_world "c0ffee" =
    [system_turn "Be brief."; user_turn "Hi"; assistant_turn "Hello!"] ∧
  system_count (stored one_turn_world "c0ffee") = 1.
Proof.
  apply (new_conversation_holds_three_messages sample_get_prompt_content
           sample_json_dumps sample_node always_completes "llama3-8b-8192"
           DEFAULT_PROMPT "Be brief." "Hi" 0.5%float 1024%Z 1%float 42%Z 3%Z
           "" false "" initial_world
           (sample_call always_completes "Be brief." "Hi" "" initial_world).1
           one_turn_world).
  - by apply (bool_decide_unpack _).
  - reflexivity.
  - reflexivity.
  - reflexivity.
Defined.




(** A second turn on the conversation of [one_turn_world]: two messages are
    added after the three stored ones, none of them a system message. *)
Lemma system_message_only_for_empty_history_witness :
  let r := sample_call always_completes "Be rude." "And now?" "c0ffee"
             one_turn_world in
  stored r.2 "c0ffee" =
    [system_turn "Be brief."; user_turn "Hi"; assistant_turn "Hello!"]
    ++ [user_turn "And now?"] ++ [assistant_turn "Hello!"] ∧
  system_count (stored r.2 "c0ffee") = 1.
Proof.
  destruct (system_message_only_for_empty_history sample_get_prompt_content
              sample_json_dumps) as [Hturn _].
  apply (Hturn sample_node always_completes "llama3-8b-8192" DEFAULT_PROMPT
           "Be rude." "And now?" 0.5%float 1024%Z 1%float 42%Z 3%Z "" false
           "c0ffee" one_turn_world
           (sample_call always_completes "Be rude." "And now?" "c0ffee"
              one_turn_world).1).
  - by apply (bool_decide_unpack _).
  - reflexivity.
  - discriminate.
  - reflexivity.
Defined.

Lemma request_body_of_every_attempt_witness :
  let w' :=
    (process_completion_request sample_get_prompt_content sample_json_dumps
       sample_node fails_once "llama3-8b-8192" "Pirate" "ignored" "Hi"
       0.5%float 1024%Z 1%float 42%Z 3%Z "###" false "" initial_world).2 in
  let body :=
    [("model", JStr "llama3-8b-8192");
     ("messages",
      JMessages [system_turn "Talk like a pirate."; user_turn "Hi"]);
     ("temperature", JFloat 0.5%float);
     ("max_tokens", JInt 1024%Z);
     ("top_p", JFloat 1%float);
     ("seed", JInt 42%Z);
     ("stop", JStr "###")] in
  (∃ k, k ≤ 3 ∧
        ((0 < 3)%Z → 0 < k) ∧
        wire w' =
        [] ++ replicate k {| req_url := API_URL;
                             req_headers := auth_headers sample_node;
                             req_json := body |}) ∧
  dict_keys body =
    ["model"; "messages"; "temperature"; "max_tokens"; "top_p"; "seed";
     "stop"] ∧
  dict_get body "stop" = Some (JStr "###").
Proof.
  apply (request_body_of_every_attempt sample_get_prompt_content
           sample_json_dumps sample_node fails_once "llama3-8b-8192" "Pirate"
           "ignored" "Hi" 0.5%float 1024%Z 1%float 42%Z 3%Z "###" false ""
           initial_world
           (process_completion_request sample_get_prompt_content
              sample_json_dumps sample_node fails_once "llama3-8b-8192"
              "Pirate" "ignored" "Hi" 0.5%float 1024%Z 1%float 42%Z 3%Z "###"
              false "" initial_world).1).
  - by apply (bool_decide_unpack _).
  - reflexivity.
Defined.

Lemma returned_conversation_id_witness :
  let r := sample_call always_completes "Be brief." "Hi" "" initial_world in
  ("" ≠ "" → conversation_id r.1 = "") ∧
  ("" = "" →
   conversation_id r.1 = "c0ffee" ∧
   (success r.1 = true →
    ∃ l w'',
      get_history (conversation_id r.1) r.2 = (l, w'') ∧
      w'' = allocated (stored r.2 (conversation_id r.1)) r.2 ∧
      deref w'' l = stored r.2 (conversation_id r.1) ∧
      deref w'' l =
        [system_turn "Be brief."; user_turn "Hi";
         assistant_turn (api_response r.1)])).
Proof.
  apply (returned_conversation_id sample_get_prompt_content
           sample_json_dumps sample_node always_completes "llama3-8b-8192"
           DEFAULT_PROMPT "Be brief." "Hi" 0.5%float 1024%Z 1%float 42%Z 3%Z
           "" false "" initial_world).
  - by apply (bool_decide_unpack _).
  - reflexivity.
Defined.

(** Three attempts allowed, all failing: three requests, then the failure. *)
Lemma make_api_request_attempts_witness :
  let data := request_data "llama3-8b-8192" 0 0.5%float 1024%Z 1%float 42%Z "" in
  let rq := request_of one_turn_world data (auth_headers sample_node) API_URL in
  (make_api_request always_fails data (auth_headers sample_node) API_URL 3
     one_turn_world).2 = with_wire one_turn_world [rq; rq; rq] ∧
  (make_api_request always_fails data (auth_headers sample_node) API_URL 3
     one_turn_world).1 = ("Internal Server Error", false, "500") ∧
  (make_api_request fails_once data (auth_headers sample_node) API_URL 3
     one_turn_world).2 = with_wire one_turn_world [rq; rq] ∧
  (make_api_request fails_once data (auth_headers sample_node) API_URL 3
     one_turn_world).1 = ("Hello!", true, "200").
Proof.
  intros data rq.
  destruct (make_api_request_attempts always_fails data
              (auth_headers sample_node) API_URL 3 one_turn_world)
    as (_ & Hall & _).
  destruct (make_api_request_attempts fails_once data
              (auth_headers sample_node) API_URL 3 one_turn_world)
    as (_ & _ & Honce).
  destruct Hall as (Hw & _ & Hr); [intros i _; exact I|].
  destruct (Honce "Hello!" "200") as (Hw2 & Hr2);
    [simpl; lia | exact I | reflexivity |].
  split_and!.
  - exact Hw.
  - apply Hr. simpl. lia.
  - exact Hw2.
  - exact Hr2.
Defined.

Lemma preset_overrides_system_message_witness :
  let call := process_completion_request sample_get_prompt_content
               sample_json_dumps sample_node always_completes
               "llama3-8b-8192" "Pirate" in
  call "Be brief." "Hi" 0.5%float 1024%Z 1%float 42%Z 3%Z "" false ""
    initial_world =
  sample_call always_completes "Talk like a pirate." "Hi" "" initial_world ∧
  (∀ system_message',
     call "Be brief." "Hi" 0.5%float 1024%Z 1%float 42%Z 3%Z "" false ""
       initial_world =
     call system_message' "Hi" 0.5%float 1024%Z 1%float 42%Z 3%Z "" false ""
       initial_world) ∧
  (∀ out w',
     wf initial_world →
     history_before initial_world "" = [] →
     call "Be brief." "Hi" 0.5%float 1024%Z 1%float 42%Z 3%Z "" false ""
       initial_world = (out, w') →
     let messages := [system_turn "Talk like a pirate."; user_turn "Hi"] in
     (∃ k, ((0 < 3)%Z → 0 < k) ∧
           wire w' =
           [] ++ replicate k
             {| req_url := API_URL; req_headers := auth_headers sample_node;
                req_json := request_body "llama3-8b-8192" messages 0.5%float
                              1024%Z 1%float 42%Z "" |}) ∧
     (success out = true →
      stored w' (conversation_id out) =
        messages ++ [assistant_turn (api_response out)])).
Proof.
  apply (preset_overrides_system_message sample_get_prompt_content
           sample_json_dumps sample_node always_completes "llama3-8b-8192"
           "Pirate" "Be brief." "Hi" 0.5%float 1024%Z 1%float 42%Z 3%Z ""
           false "" initial_world).
  discriminate.
Defined.

Lemma other_conversations_untouched_witness :
  let r := sample_call always_fails "Be brief." "More" "c0ffee"
             (sample_call {| uuid4 := "decaf"; post := post always_completes |}
                "Be formal." "Good day" "" one_turn_world).2 in
  stored r.2 "decaf" =
    [system_turn "Be formal."; user_turn "Good day"; assistant_turn "Hello!"].
Proof.
  intros r.
  rewrite (other_conversations_untouched sample_get_prompt_content
             sample_json_dumps sample_node always_fails "llama3-8b-8192"
             DEFAULT_PROMPT "Be brief." "More" 0.5%float 1024%Z 1%float 42%Z
             3%Z "" false "c0ffee"
             (sample_call {| uuid4 := "decaf"; post := post always_completes |}
                "Be formal." "Good day" "" one_turn_world).2 r.1 r.2).
  - reflexivity.
  - by apply (bool_decide_unpack _).
  - reflexivity.
  - discriminate.
Defined.
(** * More about the method *)

(** ** Shapes, keys and snapshots *)

Lemma dict_get_entry {V} (d : list (string * V)) k v :
  NoDup (dict_keys d) → (k, v) ∈ d → dict_get d k = Some v.
Proof.
  unfold dict_keys. induction d as [|[k' v'] d IH]; csimpl.
  - by intros _ ?%elem_of_nil.
  - intros [Hk Hd]%NoDup_cons [[= -> ->]|Hin]%elem_of_cons.
    + by rewrite String.eqb_refl.
    + destruct (String.eqb_spec k' k) as [->|Hne]; [|by apply IH].
      destruct Hk. apply list_elem_of_fmap. by exists (k, v).
Qed.

Lemma snapshot_stored w :
  NoDup (dict_keys (conversations w)) →
  snapshot w (conversations w) =
  map (λ id, (id, stored w id)) (dict_keys (conversations w)).
Proof.
  intros Hk. unfold snapshot, dict_keys.
  rewrite <- list_fmap_compose. apply list_fmap_ext.
  intros i [k l] Hi; simpl. unfold stored.
  by rewrite (dict_get_entry _ k l Hk (list_elem_of_lookup_2 _ _ _ Hi)).
Qed.

Lemma dialogue_app b ms1 ms2 :
  dialogue b ms1 = true →
  dialogue false ms2 = true →
  dialogue b (ms1 ++ ms2) = true.
Proof.
  revert b. induction ms1 as [|m ms1 IH]; intros b; simpl.
  - intros _ H2. destruct ms2 as [|m2 ms2]; [done|]. simpl in *.
    destruct (String.eqb (role m2) "user"); [done|].
    by destruct (String.eqb (role m2) "assistant").
  - destruct (String.eqb (role m) "user"); [apply IH|].
    destruct (String.eqb (role m) "assistant"); [|done].
    intros [-> H1]%andb_prop H2. simpl. by apply IH.
Qed.

Lemma dialogue_system_count b ms :
  dialogue b ms = true → system_count ms = 0.
Proof.
  revert b. unfold system_count.
  induction ms as [|m ms IH]; intros b; simpl; [done|].
  rewrite filter_cons.
  destruct (String.eqb_spec (role m) "user") as [Hu|Hu].
  - intros H. destruct (decide (role m = "system")) as [Hs|Hs]; [congruence|].
    by apply (IH true).
  - destruct (String.eqb_spec (role m) "assistant") as [Ha|Ha]; [|done].
    intros [_ H]%andb_prop.
    destruct (decide (role m = "system")) as [Hs|Hs]; [congruence|].
    by apply (IH false).
Qed.

Lemma conversation_shape_app ms1 ms2 :
  conversation_shape ms1 = true →
  dialogue false ms2 = true →
  conversation_shape (ms1 ++ ms2) = true.
Proof.
  destruct ms1 as [|s rest]; [done|]. simpl.
  intros [[-> Hne]%andb_prop Hd]%andb_prop H2. simpl.
  rewrite (dialogue_app _ _ _ Hd H2), andb_true_r.
  by destruct rest.
Qed.

Lemma conversation_shape_system_count ms :
  conversation_shape ms = true → system_count ms = 1.
Proof.
  destruct ms as [|s rest]; [done|]. simpl.
  intros [[Hs _]%andb_prop Hd]%andb_prop.
  apply String.eqb_eq in Hs. unfold system_count. rewrite filter_cons.
  destruct (decide (role s = "system")); [|done]. simpl.
  f_equal. by apply (dialogue_system_count false).
Qed.

Section MethodMore.
Variable get_prompt_content : list (string * string) → string → string.
Variable json_dumps : list (string * list Message) → string.

(** A turn on a conversation that has messages: what is sent and what is
    stored. *)
Lemma later_turn_effect self env model preset system_message user_input
    temperature max_tokens top_p seed max_retries stop json_mode cid w out w' :
  wf w →
  str_truthy cid = true →
  stored w cid ≠ [] →
  process_completion_request get_prompt_content json_dumps self env model
    preset system_message user_input temperature max_tokens top_p seed
    max_retries stop json_mode cid w = (out, w') →
  wf w' ∧
  conversation_id out = cid ∧
  (∃ k, k ≤ Z.to_nat max_retries ∧
        wire w' =
        wire w ++ replicate k
          {| req_url := API_URL; req_headers := auth_headers self;
             req_json := request_body model
                           (stored w cid ++ [user_turn user_input])
                           temperature max_tokens top_p seed stop |}) ∧
  (success out = true →
   stored w' cid =
     stored w cid
     ++ [user_turn user_input; assistant_turn (api_response out)]).
Proof.
  intros Hwf Hc Hne Hrun.
  destruct (process_completion_request_effect _ _ _ _ _ _ _ _ _ _ _ _ _ _
              _ _ _ _ _ Hwf Hrun)
    as (k & Hatt & Hid & _ & Hwire & Hwf' & Hst & _).
  unfold turn_id, history_before, opening in *. rewrite Hc in *.
  rewrite (list_truthy_true _ Hne) in *. cbn [app] in *.
  split_and!; [done|done| |].
  - exists k. split; [|done].
    pose proof (attempts_le
      (post env {| req_url := API_URL; req_headers := auth_headers self;
                   req_json := request_body model
                                 (stored w cid ++ [user_turn user_input])
                                 temperature max_tokens top_p seed stop |})
      (Z.to_nat max_retries) 0 ("", "")) as Hle.
    by rewrite Hatt in Hle.
  - intros Hok. rewrite Hst, Hok. by rewrite <- (assoc_L (++)).
Qed.

(** X4.  A call never removes an identifier from the table nor reorders it,
    and adds at most one, at the end: the identifier it returns.  When the
    table knew that identifier nothing is added; and the identifier returned
    is in the table afterwards whenever the input identifier was empty or
    the request succeeded. *)
Theorem table_keys_after_call self env model preset system_message
    user_input temperature max_tokens top_p seed max_retries stop json_mode
    cid w out w' :
  wf w →
  process_completion_request get_prompt_content json_dumps self env model
    preset system_message user_input temperature max_tokens top_p seed
    max_retries stop json_mode cid w = (out, w') →
  (dict_keys (conversations w') = dict_keys (conversations w) ∨
   dict_keys (conversations w') =
     dict_keys (conversations w) ++ [conversation_id out]) ∧
  (known w (conversation_id out) = true →
   dict_keys (conversations w') = dict_keys (conversations w)) ∧
  (negb (str_truthy cid) || success out = true →
   known w' (conversation_id out) = true).
Proof.
  intros Hwf Hrun.
  destruct (process_completion_request_effect _ _ _ _ _ _ _ _ _ _ _ _ _ _
              _ _ _ _ _ Hwf Hrun)
    as (k & _ & -> & _ & _ & _ & _ & _ & Hkeys & _).
  rewrite Hkeys. split_and!.
  - destruct (known w (turn_id env cid)); [left; apply app_nil_r|by right].
  - intros ->. apply app_nil_r.
  - intros _. apply known_keys. rewrite Hkeys, elem_of_app.
    destruct (known w (turn_id env cid)) eqn:Hk.
    + left. by apply known_keys.
    + right. by apply list_elem_of_singleton.
Qed.

(** X1.  The fifth output of a call is what [get_chat_history] returns right
    after it, and [get_chat_history] changes nothing: no list, no entry of
    the table, no request. *)
Theorem chat_history_is_get_chat_history self env model preset system_message
    user_input temperature max_tokens top_p seed max_retries stop json_mode
    cid w out w' :
  process_completion_request get_prompt_content json_dumps self env model
    preset system_message user_input temperature max_tokens top_p seed
    max_retries stop json_mode cid w = (out, w') →
  get_chat_history json_dumps w' = (chat_history out, w').
Proof.
  rewrite process_completion_request_run. cbv zeta.
  destruct (locate env cid w) as [[id l] w0].
  destruct (attempts _ _ _ _) as [[[msg ok] st] k].
  by intros [= <- <-].
Qed.

(** X2.  The fifth output of a call is the serialisation of the table as the
    call leaves it: every identifier the table knows, once and in the
    table's order, each with the messages stored for it. *)
Theorem chat_history_lists_stored_histories self env model preset
    system_message user_input temperature max_tokens top_p seed max_retries
    stop json_mode cid w out w' :
  wf w →
  process_completion_request get_prompt_content json_dumps self env model
    preset system_message user_input temperature max_tokens top_p seed
    max_retries stop json_mode cid w = (out, w') →
  chat_history out =
    json_dumps (map (λ id, (id, stored w' id))
                  (dict_keys (conversations w'))) ∧
  NoDup (dict_keys (conversations w')).
Proof.
  intros Hwf Hrun.
  destruct (process_completion_request_effect _ _ _ _ _ _ _ _ _ _ _ _ _ _
              _ _ _ _ _ Hwf Hrun)
    as (k & _ & _ & Hch & _ & (_ & Hk & _) & _).
  split; [|done]. by rewrite Hch, snapshot_stored.
Qed.

(** X3.  A call only ever appends: when the identifier generated for a new
    conversation is not one the table already has, the messages stored for
    any identifier before the call are a prefix of those stored for it after
    the call. *)
Theorem stored_histories_only_grow self env model preset system_message
    user_input temperature max_tokens top_p seed max_retries stop json_mode
    cid w out w' :
  wf w →
  (cid = "" → uuid4 env ∉ dict_keys (conversations w)) →
  process_completion_request get_prompt_content json_dumps self env model
    preset system_message user_input temperature max_tokens top_p seed
    max_retries stop json_mode cid w = (out, w') →
  ∀ id, stored w id `prefix_of` stored w' id.
Proof.
  intros Hwf Hfresh Hrun id.
  destruct (process_completion_request_effect _ _ _ _ _ _ _ _ _ _ _ _ _ _
              _ _ _ _ _ Hwf Hrun)
    as (k & _ & _ & _ & _ & _ & Hst & Hframe & _).
  destruct (decide (id = turn_id env cid)) as [->|Hid];
    [|by rewrite Hframe].
  rewrite Hst. unfold turn_id, history_before.
  destruct (str_truthy cid) eqn:Hc.
  - destruct (success out); [|done].
    rewrite <- (assoc_L (++)). by apply prefix_app_r.
  - assert (Hnew : stored w (uuid4 env) = []).
    { unfold stored.
      destruct (dict_get (conversations w) (uuid4 env)) eqn:Hg; [|done].
      destruct (Hfresh (proj1 (str_truthy_empty cid) Hc)).
      apply known_keys. unfold known. by rewrite Hg. }
    rewrite Hnew. apply prefix_nil.
Qed.

(** X8.  A call keeps the state well formed: afterwards every list the table
    refers to exists, no identifier is in the table twice, and no two
    identifiers share a list object. *)
Theorem call_keeps_well_formed self env model preset system_message
    user_input temperature max_tokens top_p seed max_retries stop json_mode
    cid w out w' :
  wf w →
  process_completion_request get_prompt_content json_dumps self env model
    preset system_message user_input temperature max_tokens top_p seed
    max_retries stop json_mode cid w = (out, w') →
  wf w'.
Proof.
  intros Hwf Hrun.
  by destruct (process_completion_request_effect _ _ _ _ _ _ _ _ _ _ _ _ _
                 _ _ _ _ _ _ Hwf Hrun) as (k & _ & _ & _ & _ & Hwf' & _).
Qed.

End MethodMore.

Section MethodTurns.
Variable get_prompt_content : list (string * string) → string → string.
Variable json_dumps : list (string * list Message) → string.

(** X5.  The context is carried to the next turn.  After a call that
    succeeded and returned a non-empty identifier, a call given that
    identifier works on the same conversation, and every request it sends
    carries all that the first call stored, the assistant's answer last,
    followed by the new user message; when the second request succeeds,
    these and the second answer are what is stored afterwards.  The system
    message and preset of the second call are found nowhere in it. *)
Theorem next_turn_carries_context
    self1 env1 model1 preset1 system_message1 user_input1 temperature1
    max_tokens1 top_p1 seed1 max_retries1 stop1 json_mode1 cid w out1 w1
    self2 env2 model2 preset2 system_message2 user_input2 temperature2
    max_tokens2 top_p2 seed2 max_retries2 stop2 json_mode2 out2 w2 :
  wf w →
  process_completion_request get_prompt_content json_dumps self1 env1 model1
    preset1 system_message1 user_input1 temperature1 max_tokens1 top_p1
    seed1 max_retries1 stop1 json_mode1 cid w = (out1, w1) →
  success out1 = true →
  conversation_id out1 ≠ "" →
  process_completion_request get_prompt_content json_dumps self2 env2 model2
    preset2 system_message2 user_input2 temperature2 max_tokens2 top_p2
    seed2 max_retries2 stop2 json_mode2 (conversation_id out1) w1
    = (out2, w2) →
  let first :=
    history_before w cid
    ++ opening (history_before w cid)
         (resolve_system_message get_prompt_content self1 preset1
            system_message1)
         user_input1
    ++ [assistant_turn (api_response out1)] in
  stored w1 (conversation_id out1) = first ∧
  conversation_id out2 = conversation_id out1 ∧
  (∃ k, k ≤ Z.to_nat max_retries2 ∧
        wire w2 =
        wire w1 ++ replicate k
          {| req_url := API_URL; req_headers := auth_headers self2;
             req_json := request_body model2
                           (first ++ [user_turn user_input2])
                           temperature2 max_tokens2 top_p2 seed2 stop2 |}) ∧
  (success out2 = true →
   stored w2 (conversation_id out1) =
     first ++ [user_turn user_input2; assistant_turn (api_response out2)]).
Proof.
  intros Hwf Hrun1 Hok Hid Hrun2 first.
  destruct (process_completion_request_effect _ _ _ _ _ _ _ _ _ _ _ _ _ _
              _ _ _ _ _ Hwf Hrun1)
    as (k1 & _ & Hid1 & _ & _ & Hwf1 & Hst1 & _).
  rewrite Hok, <- Hid1, <- (assoc_L (++)) in Hst1. fold first in Hst1.
  assert (Hc : str_truthy (conversation_id out1) = true).
  { by destruct (conversation_id out1). }
  assert (Hne : stored w1 (conversation_id out1) ≠ []).
  { rewrite Hst1. unfold first.
    by intros [_ [_ ?]%app_eq_nil]%app_eq_nil. }
  destruct (later_turn_effect _ _ _ _ _ _ _ _ _ _ _ _ _ _ _ _ _ _ _
              Hwf1 Hc Hne Hrun2) as (_ & Hid2 & Hwire2 & Hst2).
  rewrite Hst1 in Hwire2, Hst2. done.
Qed.

(** X6.  On a conversation that has messages, the preset and the system
    message of a call are not used: two calls on it that differ only in
    these give the same outputs and leave the same state, the requests sent
    included. *)
Theorem system_message_ignored_on_later_turns self env model preset1 preset2
    system_message1 system_message2 user_input temperature max_tokens top_p
    seed max_retries stop json_mode cid w :
  str_truthy cid = true →
  stored w cid ≠ [] →
  process_completion_request get_prompt_content json_dumps self env model
    preset1 system_message1 user_input temperature max_tokens top_p seed
    max_retries stop json_mode cid w =
  process_completion_request get_prompt_content json_dumps self env model
    preset2 system_message2 user_input temperature max_tokens top_p seed
    max_retries stop json_mode cid w.
Proof.
  intros Hc Hne. rewrite !process_completion_request_run. cbv zeta.
  unfold locate, bind. rewrite Hc. cbn [negb]. unfold ret at 1 3.
  unfold stored in Hne.
  destruct (dict_get (conversations w) cid) as [l0|] eqn:Hg; [|done].
  rewrite (get_history_known _ _ _ Hg). unfold ret, opening.
  by rewrite deref_allocated_new, (list_truthy_true _ Hne).
Qed.

(** X9.  In every state the manager gets into, what is stored for an
    identifier is nothing, or a conversation: one system message, then a
    user message, then user and assistant messages with every assistant
    message directly after a user message; it has exactly one system
    message. *)
Theorem reachable_conversations_well_shaped w id :
  reachable get_prompt_content json_dumps w →
  stored w id = [] ∨
  conversation_shape (stored w id) = true ∧ system_count (stored w id) = 1.
Proof.
  intros Hreach.
  cut (stored w id = [] ∨ conversation_shape (stored w id) = true).
  { intros [?|H]; [by left|right].
    split; [done|]. by apply conversation_shape_system_count. }
  revert id.
  induction Hreach as [|self env model preset system_message user_input
    temperature max_tokens top_p seed max_retries stop json_mode cid w out
    w' Hreach IH Hrun]; intros id; [by left|].
  apply reachable_wf in Hreach.
  destruct (process_completion_request_effect _ _ _ _ _ _ _ _ _ _ _ _ _ _
              _ _ _ _ _ Hreach Hrun)
    as (k & _ & Hid & _ & _ & _ & Hst & Hframe & _).
  destruct (decide (id = turn_id env cid)) as [->|Hne];
    [|rewrite Hframe by done; apply IH].
  rewrite Hst.
  set (sys := resolve_system_message _ _ _ _).
  set (old := history_before w cid).
  assert (Hold : old = [] ∨ conversation_shape old = true).
  { unfold old, history_before. destruct (str_truthy cid); [apply IH|by left]. }
  destruct (success out); [right|done].
  destruct Hold as [->|Hshape]; [done|].
  rewrite <- (assoc_L (++)). apply conversation_shape_app; [done|].
  unfold opening. by destruct old.
Qed.

End MethodTurns.

(** ** The inputs offered *)

(** X10.  The presets offered are the default prompt and the names of the
    prompt options that were loaded, and nothing else; when loading the
    prompt files raises, the default prompt is the only one.  So a preset
    the user can choose is the default prompt or a name under which the
    loaded options hold a text. *)
Theorem presets_offered loaded p :
  p ∈ preset_choices loaded ↔
  p = DEFAULT_PROMPT ∨
  ∃ prompt_options text,
    loaded = Some prompt_options ∧ dict_get prompt_options p = Some text.
Proof.
  assert (Hkeys : ∀ (d : list (string * string)),
            p ∈ dict_keys d ↔ ∃ text, dict_get d p = Some text).
  { intros d. pose proof (dict_get_None d p) as Hn.
    destruct (dict_get d p) as [text|].
    - split; [by exists text|intros _].
      destruct (decide (p ∈ dict_keys d)) as [|Hnin]; [done|].
      by apply Hn in Hnin.
    - split; [intros Hin; by apply Hn in Hin|by intros [text ?]]. }
  change (preset_choices loaded) with
    ([DEFAULT_PROMPT] ++
     dict_keys (match loaded with Some o => o | None => [] end)).
  rewrite elem_of_app, list_elem_of_singleton, Hkeys.
  destruct loaded as [o|].
  - split; (intros [?|H]; [by left|right]).
    + destruct H as [text H]. by exists o, text.
    + destruct H as (o' & text & [= <-] & H). by exists text.
  - split; (intros [?|H]; [by left|]).
    + by destruct H.
    + by destruct H as (o' & text & [=] & _).
Qed.

(** * More of the method on the concrete node *)

Lemma table_keys_after_call_witness :
  let r := sample_call always_completes "Be brief." "Hi" "abc"
             one_turn_world in
  (dict_keys (conversations r.2) = ["c0ffee"] ∨
   dict_keys (conversations r.2) = ["c0ffee"] ++ ["abc"]) ∧
  (known one_turn_world "abc" = true →
   dict_keys (conversations r.2) = ["c0ffee"]) ∧
  (negb (str_truthy "abc") || success r.1 = true → known r.2 "abc" = true).
Proof.
  apply (table_keys_after_call sample_get_prompt_content sample_json_dumps
           sample_node always_completes "llama3-8b-8192" DEFAULT_PROMPT
           "Be brief." "Hi" 0.5%float 1024%Z 1%float 42%Z 3%Z "" false
           "abc" one_turn_world
           (sample_call always_completes "Be brief." "Hi" "abc"
              one_turn_world).1
           (sample_call always_completes "Be brief." "Hi" "abc"
              one_turn_world).2).
  - by apply (bool_decide_unpack _).
  - reflexivity.
Defined.

Lemma chat_history_is_get_chat_history_witness :
  get_chat_history sample_json_dumps one_turn_world =
  ("c0ffee: system=Be brief., user=Hi, assistant=Hello!", one_turn_world).
Proof.
  apply (chat_history_is_get_chat_history sample_get_prompt_content
           sample_json_dumps sample_node always_completes "llama3-8b-8192"
           DEFAULT_PROMPT "Be brief." "Hi" 0.5%float 1024%Z 1%float 42%Z 3%Z
           "" false "" initial_world
           (sample_call always_completes "Be brief." "Hi" "" initial_world).1).
  reflexivity.
Defined.

Lemma chat_history_lists_stored_histories_witness :
  let r := sample_call always_fails "Be brief." "More" "c0ffee"
             two_conversations_world in
  chat_history r.1 =
    sample_json_dumps
      (map (λ id, (id, stored r.2 id)) ["c0ffee"; "decaf"]) ∧
  NoDup ["c0ffee"; "decaf"].
Proof.
  apply (chat_history_lists_stored_histories sample_get_prompt_content
           sample_json_dumps sample_node always_fails "llama3-8b-8192"
           DEFAULT_PROMPT "Be brief." "More" 0.5%float 1024%Z 1%float 42%Z
           3%Z "" false "c0ffee" two_conversations_world).
  - by apply (bool_decide_unpack _).
  - reflexivity.
Defined.

Lemma stored_histories_only_grow_witness :
  [system_turn "Be brief."; user_turn "Hi"; assistant_turn "Hello!"]
  `prefix_of`
  stored (sample_call always_fails "Be brief." "More" "c0ffee"
            two_conversations_world).2 "c0ffee".
Proof.
  apply (stored_histories_only_grow sample_get_prompt_content
           sample_json_dumps sample_node always_fails "llama3-8b-8192"
           DEFAULT_PROMPT "Be brief." "More" 0.5%float 1024%Z 1%float 42%Z
           3%Z "" false "c0ffee" two_conversations_world
           (sample_call always_fails "Be brief." "More" "c0ffee"
              two_conversations_world).1
           (sample_call always_fails "Be brief." "More" "c0ffee"
              two_conversations_world).2).
  - by apply (bool_decide_unpack _).
  - discriminate.
  - reflexivity.
Defined.

Lemma call_keeps_well_formed_witness :
  wf (sample_call always_completes "Be brief." "Hi" "abc"
        two_conversations_world).2.
Proof.
  apply (call_keeps_well_formed sample_get_prompt_content sample_json_dumps
           sample_node always_completes "llama3-8b-8192" DEFAULT_PROMPT
           "Be brief." "Hi" 0.5%float 1024%Z 1%float 42%Z 3%Z "" false "abc"
           two_conversations_world
           (sample_call always_completes "Be brief." "Hi" "abc"
              two_conversations_world).1).
  - by apply (bool_decide_unpack _).
  - reflexivity.
Defined.

Lemma next_turn_carries_context_witness :
  let r1 := sample_call always_completes "Be brief." "Hi" "" initial_world in
  let r2 := sample_call fails_once "Be rude." "And now?" "c0ffee" r1.2 in
  let first :=
    [system_turn "Be brief."; user_turn "Hi"; assistant_turn "Hello!"] in
  stored r1.2 "c0ffee" = first ∧
  conversation_id r2.1 = "c0ffee" ∧
  (∃ k, k ≤ 3 ∧
        wire r2.2 =
        wire r1.2 ++ replicate k
          {| req_url := API_URL; req_headers := auth_headers sample_node;
             req_json := request_body "llama3-8b-8192"
                           (first ++ [user_turn "And now?"])
                           0.5%float 1024%Z 1%float 42%Z "" |}) ∧
  (success r2.1 = true →
   stored r2.2 "c0ffee" =
     first ++ [user_turn "And now?"; assistant_turn "Hello!"]).
Proof.
  apply (next_turn_carries_context sample_get_prompt_content
           sample_json_dumps
           sample_node always_completes "llama3-8b-8192" DEFAULT_PROMPT
           "Be brief." "Hi" 0.5%float 1024%Z 1%float 42%Z 3%Z "" false ""
           initial_world
           (sample_call always_completes "Be brief." "Hi" "" initial_world).1
           one_turn_world
           sample_node fails_once "llama3-8b-8192" DEFAULT_PROMPT "Be rude."
           "And now?" 0.5%float 1024%Z 1%float 42%Z 3%Z "" false
           (sample_call fails_once "Be rude." "And now?" "c0ffee"
              one_turn_world).1).
  - by apply (bool_decide_unpack _).
  - reflexivity.
  - reflexivity.
  - discriminate.
  - reflexivity.
Defined.

Lemma system_message_ignored_on_later_turns_witness :
  process_completion_request sample_get_prompt_content sample_json_dumps
    sample_node always_completes "llama3-8b-8192" "Pirate" "Be brief."
    "And now?" 0.5%float 1024%Z 1%float 42%Z 3%Z "" false "c0ffee"
    one_turn_world =
  process_completion_request sample_get_prompt_content sample_json_dumps
    sample_node always_completes "llama3-8b-8192" DEFAULT_PROMPT "Be rude."
    "And now?" 0.5%float 1024%Z 1%float 42%Z 3%Z "" false "c0ffee"
    one_turn_world.
Proof.
  apply (system_message_ignored_on_later_turns sample_get_prompt_content
           sample_json_dumps).
  - reflexivity.
  - discriminate.
Defined.

Lemma reachable_conversations_well_shaped_witness :
  stored one_turn_world "c0ffee" = [] ∨
  conversation_shape (stored one_turn_world "c0ffee") = true ∧
  system_count (stored one_turn_world "c0ffee") = 1.
Proof.
  apply (reachable_conversations_well_shaped sample_get_prompt_content
           sample_json_dumps one_turn_world "c0ffee").
  apply (reach_call sample_get_prompt_content sample_json_dumps sample_node
           always_completes "llama3-8b-8192" DEFAULT_PROMPT "Be brief." "Hi"
           0.5%float 1024%Z 1%float 42%Z 3%Z "" false "" initial_world
           (sample_call always_completes "Be brief." "Hi" "" initial_world).1).
  - apply reach_init.
  - reflexivity.
Defined.
